(** * SoftWire: a bit-banged I2C master

    A shallow embedding of [src/SoftWire.cpp].  Integers of the C++ code
    are [Z] with the wrap-around of their width written out, the transmit
    and receive buffers are lists of bytes indexed with guarded lookups,
    and the two bus lines together with the deadline timers form an
    explicit environment that every bit-engine routine threads through. *)

From Stdlib Require Import ZArith Lia Bool.
From stdpp Require Import base list.

Local Open Scope Z_scope.

(** ** Fixed-width integers *)

Definition u8 (z : Z) : Z := z mod 256.
Definition u32 (z : Z) : Z := z mod 2 ^ 32.

(** ** CRC-8 *)

Definition polynomial : Z := 0x107.

(** One pass of the loop body of [crc8_update]: the accumulator is a
    [uint8_t], so both assignments truncate to eight bits. *)
Definition crc8_shift (crc : Z) : Z :=
  if Z.land crc 0x80 =? 0
  then u8 (Z.shiftl crc 1)
  else u8 (Z.lxor (Z.shiftl crc 1) polynomial).

Fixpoint crc8_loop (i : nat) (crc : Z) : Z :=
  match i with
  | O => crc
  | S i' => crc8_loop i' (crc8_shift crc)
  end.

Definition crc8_update (crc data : Z) : Z :=
  crc8_loop 8 (u8 (Z.lxor crc data)).

(** Folding [crc8_update] over a payload, as a caller of the routine does. *)
Definition crc8 (init : Z) (payload : list Z) : Z :=
  foldl crc8_update init payload.

(** The CRC step in the words of the specification: shift the running
    value left and, when a bit leaves the low eight, XOR the generator
    x^8 + x^2 + x + 1 back in.  No truncation is applied. *)
Definition crc8_step_spec (crc : Z) : Z :=
  let shifted := 2 * crc in
  if 256 <=? shifted then Z.lxor shifted 0x107 else shifted.

Definition crc8_update_spec (crc data : Z) : Z :=
  Nat.iter 8 crc8_step_spec (u8 (Z.lxor crc data)).

(** ** Transaction state *)

Record SoftWire := mkSoftWire {
  _delay_us : Z;
  _timeout_ms : Z;
  _rxBuffer : list Z;
  _rxBufferSize : Z;
  _rxBufferIndex : Z;
  _rxBufferBytesRead : Z;
  _txAddress : Z;
  _txBuffer : list Z;
  _txBufferSize : Z;
  _txBufferIndex : Z;
  write_error : Z
}.

Definition set_delay_us (v : Z) (s : SoftWire) : SoftWire :=
  mkSoftWire v (_timeout_ms s) (_rxBuffer s) (_rxBufferSize s)
    (_rxBufferIndex s) (_rxBufferBytesRead s) (_txAddress s) (_txBuffer s)
    (_txBufferSize s) (_txBufferIndex s) (write_error s).

Definition set_rxBuffer (v : list Z) (s : SoftWire) : SoftWire :=
  mkSoftWire (_delay_us s) (_timeout_ms s) v (_rxBufferSize s)
    (_rxBufferIndex s) (_rxBufferBytesRead s) (_txAddress s) (_txBuffer s)
    (_txBufferSize s) (_txBufferIndex s) (write_error s).

Definition set_rxBufferIndex (v : Z) (s : SoftWire) : SoftWire :=
  mkSoftWire (_delay_us s) (_timeout_ms s) (_rxBuffer s) (_rxBufferSize s)
    v (_rxBufferBytesRead s) (_txAddress s) (_txBuffer s)
    (_txBufferSize s) (_txBufferIndex s) (write_error s).

Definition set_rxBufferBytesRead (v : Z) (s : SoftWire) : SoftWire :=
  mkSoftWire (_delay_us s) (_timeout_ms s) (_rxBuffer s) (_rxBufferSize s)
    (_rxBufferIndex s) v (_txAddress s) (_txBuffer s)
    (_txBufferSize s) (_txBufferIndex s) (write_error s).

Definition set_txAddress (v : Z) (s : SoftWire) : SoftWire :=
  mkSoftWire (_delay_us s) (_timeout_ms s) (_rxBuffer s) (_rxBufferSize s)
    (_rxBufferIndex s) (_rxBufferBytesRead s) v (_txBuffer s)
    (_txBufferSize s) (_txBufferIndex s) (write_error s).

Definition set_txBuffer (v : list Z) (s : SoftWire) : SoftWire :=
  mkSoftWire (_delay_us s) (_timeout_ms s) (_rxBuffer s) (_rxBufferSize s)
    (_rxBufferIndex s) (_rxBufferBytesRead s) (_txAddress s) v
    (_txBufferSize s) (_txBufferIndex s) (write_error s).

Definition set_txBufferIndex (v : Z) (s : SoftWire) : SoftWire :=
  mkSoftWire (_delay_us s) (_timeout_ms s) (_rxBuffer s) (_rxBufferSize s)
    (_rxBufferIndex s) (_rxBufferBytesRead s) (_txAddress s) (_txBuffer s)
    (_txBufferSize s) v (write_error s).

(** [Print::setWriteError] of the Arduino core, which [SoftWire] inherits
    through [Stream]: the flag is set to 1 and nothing in this file ever
    clears it. *)
Definition setWriteError (s : SoftWire) : SoftWire :=
  mkSoftWire (_delay_us s) (_timeout_ms s) (_rxBuffer s) (_rxBufferSize s)
    (_rxBufferIndex s) (_rxBufferBytesRead s) (_txAddress s) (_txBuffer s)
    (_txBufferSize s) (_txBufferIndex s) 1.

(** A buffer is the list of the bytes of the memory block handed to the
    object; indexing outside of it is undefined behaviour in C++ and the
    explicit [OutOfBounds] result here. *)
Inductive outcome (A : Type) : Type :=
| Done (a : A)
| OutOfBounds.
Arguments Done {A} a.
Arguments OutOfBounds {A}.

(** The object as the constructor leaves it once blocks of the given
    contents have been attached as buffers.  The default delay and
    timeout are constants of the header; 5 and 100 stand for them, and no
    statement below depends on their values. *)
Definition attached (rx tx : list Z) : SoftWire :=
  mkSoftWire 5 100 rx (Z.of_nat (length rx)) 0 0 8 tx (Z.of_nat (length tx)) 0 0.

(** ** Buffered reader and writer *)

Definition available (s : SoftWire) : Z :=
  _rxBufferBytesRead s - _rxBufferIndex s.

Definition write (data : Z) (s : SoftWire) : outcome (Z * SoftWire) :=
  if _txBufferSize s <=? _txBufferIndex s then
    Done (0, setWriteError s)
  else
    let i := Z.to_nat (_txBufferIndex s) in
    if decide (i < length (_txBuffer s))%nat then
      Done (1, set_txBufferIndex (u8 (_txBufferIndex s + 1))
                 (set_txBuffer (<[i := data]> (_txBuffer s)) s))
    else OutOfBounds.

(** [write(const uint8_t *data, size_t quantity)]: [data] holds the
    [quantity] bytes, [r] is the running count. *)
Fixpoint write_loop (data : list Z) (r : Z) (s : SoftWire)
  : outcome (Z * SoftWire) :=
  match data with
  | [] => Done (r, s)
  | d :: rest =>
      match write d s with
      | Done (n, s') => write_loop rest (r + n) s'
      | OutOfBounds => OutOfBounds
      end
  end.

Definition write_bytes (data : list Z) (s : SoftWire) : outcome (Z * SoftWire) :=
  write_loop data 0 s.

Definition read (s : SoftWire) : outcome (Z * SoftWire) :=
  if _rxBufferIndex s <? _rxBufferBytesRead s then
    let i := u8 (_rxBufferIndex s + 1) in
    match _rxBuffer s !! Z.to_nat i with
    | Some b => Done (b, set_rxBufferIndex i s)
    | None => OutOfBounds
    end
  else Done (-1, s).

Definition peek (s : SoftWire) : outcome Z :=
  if _rxBufferIndex s <? _rxBufferBytesRead s then
    match _rxBuffer s !! Z.to_nat (_rxBufferIndex s) with
    | Some b => Done b
    | None => OutOfBounds
    end
  else Done (-1).

(** Modelled from the spec: [setDelay_us], declared in the header
    [SoftWire.h], which is not part of the sources at hand.  The half-bit
    delay is set directly, in microseconds, clamped to a minimum of 1 and
    to the 255 microsecond ceiling. *)
Definition setDelay_us (delay_us : Z) (s : SoftWire) : SoftWire :=
  set_delay_us (Z.max 1 (Z.min 255 delay_us)) s.

Definition setClock (frequency : Z) (s : SoftWire) : SoftWire :=
  let period_us := u32 1000000 / frequency in
  let period_us :=
    if period_us <? 2 then 2
    else if 2 * 255 <? period_us then 2 * 255
    else period_us in
  setDelay_us (period_us / 2) s.

Definition beginTransmission (address : Z) (s : SoftWire) : SoftWire :=
  set_txBufferIndex 0 (set_txAddress address s).

(** ** The bus and the deadline timers

    The two lines and the [AsyncDelay] timers are the environment of the
    driver.  What the environment answers is scripted: each read of a line
    and each [isExpired] poll consumes the next entry of the matching
    script.  When a script runs out the lines read HIGH (an idle, pulled-up
    bus) and timers are not expired.  What the driver does to the lines is
    recorded, most recent first, in [trace], and the direction of each pin
    in [sda_released] and [scl_released]. *)

Inductive event : Type :=
| SdaLow
| SdaHigh
| SclLow
| SclHigh
| DelayUs (us : Z).

Record bus := mkBus {
  sda_in : list bool;
  scl_in : list bool;
  expired_in : list bool;
  sda_released : bool;
  scl_released : bool;
  trace : list event
}.

(** A bus with both pins released and nothing recorded yet. *)
Definition idle_bus (sda scl expired : list bool) : bus :=
  mkBus sda scl expired true true [].

Definition setSdaLow (w : bus) : bus :=
  mkBus (sda_in w) (scl_in w) (expired_in w) false (scl_released w)
    (SdaLow :: trace w).

Definition setSdaHigh (w : bus) : bus :=
  mkBus (sda_in w) (scl_in w) (expired_in w) true (scl_released w)
    (SdaHigh :: trace w).

Definition setSclLow (w : bus) : bus :=
  mkBus (sda_in w) (scl_in w) (expired_in w) (sda_released w) false
    (SclLow :: trace w).

Definition setSclHigh (w : bus) : bus :=
  mkBus (sda_in w) (scl_in w) (expired_in w) (sda_released w) true
    (SclHigh :: trace w).

Definition delayMicroseconds (us : Z) (w : bus) : bus :=
  mkBus (sda_in w) (scl_in w) (expired_in w) (sda_released w)
    (scl_released w) (DelayUs us :: trace w).

Definition readSda (w : bus) : bool * bus :=
  match sda_in w with
  | [] => (true, w)
  | level :: rest =>
      (level, mkBus rest (scl_in w) (expired_in w) (sda_released w)
                (scl_released w) (trace w))
  end.

Definition readScl (w : bus) : bool * bus :=
  match scl_in w with
  | [] => (true, w)
  | level :: rest =>
      (level, mkBus (sda_in w) rest (expired_in w) (sda_released w)
                (scl_released w) (trace w))
  end.

(** [timeout.isExpired()]: every timer polls the same script, so a
    statement proved for all scripts covers every way several live timers
    can expire. *)
Definition isExpired (w : bus) : bool * bus :=
  match expired_in w with
  | [] => (false, w)
  | e :: rest =>
      (e, mkBus (sda_in w) (scl_in w) rest (sda_released w)
            (scl_released w) (trace w))
  end.

(** Both pins are inputs again: the driver holds neither line. *)
Definition bus_idle (w : bus) : Prop :=
  sda_released w = true /\ scl_released w = true.

(** ** Protocol outcomes *)

(** Modelled from the spec: the enumeration [result_t] of the absent
    header, one of acknowledged, not-acknowledged, timed-out.  The code
    compares a result with 0 and uses it as a condition, which makes
    [ack] the zero value. *)
Inductive result_t : Type := ack | nack | timedOut.

Definition result_code (r : result_t) : Z :=
  match r with ack => 0 | nack => 1 | timedOut => 2 end.

Global Instance result_eq_dec : EqDecision result_t.
Proof. solve_decision. Defined.

(** Modelled from the spec: the read/write direction flag of the absent
    header, the low bit of the address byte on the wire. *)
Definition writeMode : Z := 0.
Definition readMode : Z := 1.

(** ** Bit engine *)

(** The polling loop
    [while (_readScl(this) == LOW) if (timeout.isExpired()) { ... }]
    up to the point where it is left: [true] when SCL was seen HIGH,
    [false] when the deadline expired first.  Every further turn of the
    loop has consumed a scripted LOW sample, hence the recursion on the
    SCL script. *)
Fixpoint spin (scl expired : list bool) : bool * (list bool * list bool) :=
  match scl with
  | [] => (true, ([], expired))
  | true :: scl' => (true, (scl', expired))
  | false :: scl' =>
      match expired with
      | [] => spin scl' []
      | true :: expired' => (false, (scl', expired'))
      | false :: expired' => spin scl' expired'
      end
  end.

Definition wait_scl_high (w : bus) : bool * bus :=
  let '(high, (scl', expired')) := spin (scl_in w) (expired_in w) in
  (high, mkBus (sda_in w) scl' expired' (sda_released w) (scl_released w)
           (trace w)).

(** Release SCL and wait out any clock stretch; [recover] is what is run
    when the deadline expires during the wait. *)
Definition stretch_with (recover : bus -> bus) (w : bus) : bool * bus :=
  let w := setSclHigh w in
  let (high, w) := wait_scl_high w in
  if high then (true, w) else (false, recover w).

(** The body of [stop]; [recover] is what the clock-release wait runs
    when its deadline expires. *)
Definition stop_with (recover : bus -> bus) (s : SoftWire) (w : bus)
  : result_t * bus :=
  let w := setSclLow w in
  let w := delayMicroseconds (_delay_us s) w in
  let w := setSdaLow w in
  let w := delayMicroseconds (_delay_us s) w in
  let (ok, w) := stretch_with recover w in
  if negb ok then (timedOut, w)
  else
    let w := delayMicroseconds (_delay_us s) w in
    let w := setSdaHigh w in
    let w := delayMicroseconds (_delay_us s) w in
    (ack, w).

(** [stop], with the depth of the nested bus resets bounded by [n]: a
    reset is nested only after a scripted LOW sample of SCL has been
    consumed, so the length of the SCL script is always enough
    ([stop_unfold] below gives the equation of the source). *)
Fixpoint stop_rec (n : nat) (s : SoftWire) (w : bus) : result_t * bus :=
  stop_with
    (fun w' => match n with
               | O => w'
               | S n' => snd (stop_rec n' s w')
               end) s w.

Definition stop (s : SoftWire) (w : bus) : result_t * bus :=
  stop_rec (length (scl_in w)) s w.

(** Modelled from the spec: [setSclHighAndStretch], a member of the absent
    header.  It releases the clock and waits for it to actually rise; the
    wait runs until either the clock line is observed high or the deadline
    expires, and the timeout path invokes a stop sequence as part of error
    recovery before returning control. *)
Definition setSclHighAndStretch (s : SoftWire) (w : bus) : bool * bus :=
  stretch_with (fun w' => snd (stop s w')) w.

Definition begin (s : SoftWire) (w : bus) : bus := snd (stop s w).

(** The eight data bits of [llWrite]; [false] when the loop was left by
    one of its [return timedOut]. *)
Fixpoint llWrite_bits (i : nat) (s : SoftWire) (data : Z) (w : bus)
  : bool * bus :=
  match i with
  | O => (true, w)
  | S i' =>
      let w := setSclLow w in
      let w := if Z.land data 0x80 =? 0 then setSdaLow w else setSdaHigh w in
      let w := delayMicroseconds (_delay_us s) w in
      let (ok, w) := setSclHighAndStretch s w in
      if negb ok then (false, w)
      else
        let w := delayMicroseconds (_delay_us s) w in
        let data := u8 (Z.shiftl data 1) in
        let (expired, w) := isExpired w in
        if expired then (false, snd (stop s w))
        else llWrite_bits i' s data w
  end.

Definition llWrite (s : SoftWire) (data : Z) (w : bus) : result_t * bus :=
  let (sent, w) := llWrite_bits 8 s data w in
  if negb sent then (timedOut, w)
  else
    let w := setSclLow w in
    let w := setSdaHigh w in
    let w := delayMicroseconds (_delay_us s) w in
    let (ok, w) := setSclHighAndStretch s w in
    if negb ok then (timedOut, w)
    else
      let (level, w) := readSda w in
      let res := if level then nack else ack in
      let w := delayMicroseconds (_delay_us s) w in
      let w := setSclLow w in
      (res, w).

(** The eight data bits of [llRead].  [data] is the referenced byte, which
    the loop updates in place, so its value is handed back on every way
    out. *)
Fixpoint llRead_bits (i : nat) (s : SoftWire) (data : Z) (w : bus)
  : bool * Z * bus :=
  match i with
  | O => (true, data, w)
  | S i' =>
      let data := u8 (Z.shiftl data 1) in
      let w := setSclLow w in
      let w := setSdaHigh w in
      let w := delayMicroseconds (_delay_us s) w in
      let (ok, w) := setSclHighAndStretch s w in
      if negb ok then (false, data, w)
      else
        let w := delayMicroseconds (_delay_us s) w in
        let (high, w) := wait_scl_high w in
        if negb high then (false, data, snd (stop s w))
        else
          let (level, w) := readSda w in
          let data := if level then Z.lor data 1 else data in
          llRead_bits i' s data w
  end.

Definition llRead (s : SoftWire) (sendAck : bool) (w : bus)
  : result_t * Z * bus :=
  let '(received, data, w) := llRead_bits 8 s 0 w in
  if negb received then (timedOut, data, w)
  else
    let w := setSclLow w in
    let w := if sendAck then setSdaLow w else setSdaHigh w in
    let w := delayMicroseconds (_delay_us s) w in
    let (ok, w) := setSclHighAndStretch s w in
    if negb ok then (timedOut, data, w)
    else
      let w := delayMicroseconds (_delay_us s) w in
      let (high, w) := wait_scl_high w in
      if negb high then (timedOut, data, snd (stop s w))
      else
        let w := delayMicroseconds (_delay_us s) w in
        let w := setSclLow w in
        (ack, data, w).

Definition llStart (s : SoftWire) (rawAddr : Z) (w : bus) : result_t * bus :=
  let w := setSdaLow w in
  let w := delayMicroseconds (_delay_us s) w in
  let w := setSclLow w in
  let w := delayMicroseconds (_delay_us s) w in
  llWrite s rawAddr w.

Definition llRepeatedStart (s : SoftWire) (rawAddr : Z) (w : bus)
  : result_t * bus :=
  let w := setSclLow w in
  let w := delayMicroseconds (_delay_us s) w in
  let w := setSdaHigh w in
  let w := delayMicroseconds (_delay_us s) w in
  let (ok, w) := setSclHighAndStretch s w in
  if negb ok then (timedOut, w)
  else
    let w := delayMicroseconds (_delay_us s) w in
    let w := setSdaLow w in
    let w := delayMicroseconds (_delay_us s) w in
    llWrite s rawAddr w.

(** Every arm of the [switch] leaves the function: [case ack] returns,
    [case nack] runs [stop()] and, having no [break], falls through into
    [default], which runs [stop()] and returns.  The body of the [while]
    is therefore entered at most once. *)
Definition llStartWait (s : SoftWire) (rawAddr : Z) (w : bus)
  : result_t * bus :=
  let (expired, w) := isExpired w in
  if expired then (timedOut, w)
  else
    let w := setSdaLow w in
    let w := delayMicroseconds (_delay_us s) w in
    let (r, w) := llWrite s rawAddr w in
    match r with
    | ack => (ack, w)
    | nack =>
        let w := snd (stop s w) in
        let w := snd (stop s w) in
        (timedOut, w)
    | timedOut =>
        let w := snd (stop s w) in
        (timedOut, w)
    end.

(** The start-with-retry operation in the words of the specification:
    attempts are repeated until one is acknowledged, a not-acknowledged
    attempt is followed by a stop and the next attempt, and timed-out is
    returned once the deadline has elapsed.  [n] bounds the number of
    attempts looked at. *)
Fixpoint llStartWait_spec (n : nat) (s : SoftWire) (rawAddr : Z) (w : bus)
  : option (result_t * bus) :=
  match n with
  | O => None
  | S n' =>
      let (expired, w) := isExpired w in
      if expired then Some (timedOut, w)
      else
        let w := setSdaLow w in
        let w := delayMicroseconds (_delay_us s) w in
        let (r, w) := llWrite s rawAddr w in
        match r with
        | ack => Some (ack, w)
        | nack => llStartWait_spec n' s rawAddr (snd (stop s w))
        | timedOut => Some (timedOut, snd (stop s w))
        end
  end.

(** Modelled from the spec: [start], an inline member of the absent
    header: a start condition followed by the 7-bit address plus the
    read/write bit, shifted out as one byte. *)
Definition start (s : SoftWire) (address mode : Z) (w : bus) : result_t * bus :=
  llStart s (u8 (Z.shiftl address 1 + mode)) w.

(** ** Byte transaction layer *)

(** The data phase of [endTransmission]: [Some code] when the loop was
    left by a [return], [None] when every buffered byte went out. *)
Fixpoint endTransmission_loop (n : nat) (i : Z) (s : SoftWire) (w : bus)
  : outcome (option Z * bus) :=
  match n with
  | O => Done (None, w)
  | S n' =>
      match _txBuffer s !! Z.to_nat i with
      | None => OutOfBounds
      | Some byte =>
          let (r, w) := llWrite s byte w in
          match r with
          | nack => Done (Some 3, w)
          | timedOut => Done (Some 4, w)
          | ack => endTransmission_loop n' (u8 (i + 1)) s w
          end
      end
  end.

Definition endTransmission (s : SoftWire) (sendStop : Z) (w : bus)
  : outcome (Z * bus) :=
  let (r, w) := start s (_txAddress s) writeMode w in
  match r with
  | nack => Done (2, w)
  | timedOut => Done (4, w)
  | ack =>
      match endTransmission_loop (Z.to_nat (_txBufferIndex s)) 0 s w with
      | OutOfBounds => OutOfBounds
      | Done (Some code, w) => Done (code, w)
      | Done (None, w) =>
          let w := if sendStop =? 0 then w else snd (stop s w) in
          Done (0, w)
      end
  end.

(** The receive loop of [requestFrom].  [_rxBuffer[i]] is bound to the
    reference parameter of [llRead] before the call, so the index is
    checked first; [llRead] leaves the byte it assembled, complete or
    not, in that cell. *)
Fixpoint requestFrom_loop (n : nat) (i quantity : Z) (s : SoftWire) (w : bus)
  : outcome (SoftWire * bus) :=
  match n with
  | O => Done (s, w)
  | S n' =>
      if decide (Z.to_nat i < length (_rxBuffer s))%nat then
        let '(r, data, w) := llRead s (negb (i =? quantity - 1)) w in
        let s := set_rxBuffer (<[Z.to_nat i := data]> (_rxBuffer s)) s in
        if result_code r =? 0 then
          requestFrom_loop n' (u8 (i + 1)) quantity
            (set_rxBufferBytesRead (u8 (_rxBufferBytesRead s + 1)) s) w
        else Done (s, w)
      else OutOfBounds
  end.

Definition requestFrom (s : SoftWire) (address quantity sendStop : Z) (w : bus)
  : outcome (Z * SoftWire * bus) :=
  let s := set_rxBufferBytesRead 0 s in
  let (r, w) := start s address readMode w in
  match (if result_code r =? 0
         then requestFrom_loop (Z.to_nat quantity) 0 quantity s w
         else Done (s, w)) with
  | OutOfBounds => OutOfBounds
  | Done (s, w) =>
      let w := if sendStop =? 0 then w else snd (stop s w) in
      Done (_rxBufferIndex s, s, w)
  end.

(** ** Notions used by the statements *)

(** The transmit side of a well-formed object: the buffer is the block of
    [_txBufferSize] bytes, sizes and cursors are [uint8_t] values and the
    cursor is inside the block. *)
Definition tx_wf (s : SoftWire) : Prop :=
  Z.of_nat (length (_txBuffer s)) = _txBufferSize s /\
  0 <= _txBufferIndex s <= _txBufferSize s /\
  _txBufferSize s <= 255.

(** The invariant of the data model, transmit and receive half. *)
Definition tx_cursor_ok (s : SoftWire) : Prop :=
  _txBufferIndex s <= _txBufferSize s.

Definition rx_cursor_ok (s : SoftWire) : Prop :=
  _rxBufferIndex s <= _rxBufferBytesRead s.

(** [w'] is a state of the bus reached from [w]: the record of what was
    done to the lines has only grown. *)
Definition later (w w' : bus) : Prop := trace w `suffix_of` trace w'.

(** Between [w] and [w'] a stop was issued, and it was the last thing
    done to the bus. *)
Definition stopped_since (s : SoftWire) (w w' : bus) : Prop :=
  exists w0, later w w0 /\ w' = snd (stop s w0).

(** The outcomes of the byte transfers of one transmission, in the order
    in which they happen on the bus: the address byte, then the buffered
    bytes up to and including the first one that is not acknowledged. *)
Fixpoint shift_out_outcomes (s : SoftWire) (bytes : list Z) (w : bus)
  : list result_t :=
  match bytes with
  | [] => []
  | byte :: rest =>
      let (r, w) := llWrite s byte w in
      r :: (if decide (r = ack) then shift_out_outcomes s rest w else [])
  end.

Definition tx_outcomes (s : SoftWire) (w : bus) : result_t * list result_t :=
  let (r, w) := start s (_txAddress s) writeMode w in
  (r, if decide (r = ack)
      then shift_out_outcomes s (take (Z.to_nat (_txBufferIndex s)) (_txBuffer s)) w
      else []).

(** The status codes in the words of the specification. *)
Definition status_of (address : result_t) (data : list result_t) : Z :=
  match address with
  | nack => 2
  | timedOut => 4
  | ack =>
      if decide (nack ∈ data) then 3
      else if decide (timedOut ∈ data) then 4
      else 0
  end.

Definition clamp (x lo hi : Z) : Z := Z.max lo (Z.min hi x).

(** The eight samples of SDA that make up a byte, most significant bit
    first ([true] is HIGH). *)
Definition bits_of (byte : Z) : list bool :=
  map (fun k => Z.testbit byte (Z.of_nat k)) [7; 6; 5; 4; 3; 2; 1; 0]%nat.

(** No clock stretching is scripted and no deadline expires. *)
Definition quiet (w : bus) : Prop := scl_in w = [] /\ expired_in w = [].

(** Two bytes queued for the device at address 0x50. *)
Definition two_queued : SoftWire :=
  mkSoftWire 5 100 [] 0 0 0 0x50 [1; 2] 2 2 0.

(** ** Concrete scenarios *)

(** The receive side after a request that buffered the two bytes 0xA5 and
    0x3C in a block of three, nothing read yet. *)
Definition two_received : SoftWire :=
  mkSoftWire 5 100 [165; 60; 0] 3 0 2 8 [] 0 0 0.

(** A slave that holds SCL low for three samples while the deadline of
    the running byte expires at the second one. *)
Definition stretched_clock : bus :=
  idle_bus [] [false; false; false] [false; true].

(** A slave that does not acknowledge the first address byte and would
    acknowledge the second; SCL is never stretched and no deadline
    expires. *)
Definition busy_then_ready : bus := idle_bus [true; false] [] [].

(** A slave that acknowledges its address and supplies 0xA5, 0x3C. *)
Definition two_byte_slave : bus :=
  idle_bus (false :: bits_of 0xA5 ++ bits_of 0x3C) [] [].

(** Nobody answers: SDA stays high at the acknowledge bit. *)
Definition silent_bus : bus := idle_bus [] [] [].

(** A slave that acknowledges whatever it is sent first. *)
Definition willing_slave : bus := idle_bus [false] [] [].

(** ** Waveforms and byte values *)

Definition is_byte (z : Z) : Prop := 0 <= z < 256.

(** Between [w] and [w'] the driver did exactly [wave] to the lines,
    listed in the order in which it happened. *)
Definition emitted (w w' : bus) (wave : list event) : Prop :=
  trace w' = reverse wave ++ trace w.

(** Driving SDA to a level: released for HIGH, forced low for LOW. *)
Definition level_event (high : bool) : event :=
  if high then SdaHigh else SdaLow.

(** One data bit on the wire as [llWrite] clocks it out. *)
Definition bit_out_wave (d : Z) (high : bool) : list event :=
  [SclLow; level_event high; DelayUs d; SclHigh; DelayUs d].

(** A byte shifted out, most significant bit first, followed by the clock
    pulse of the acknowledge bit with SDA released. *)
Definition byte_out_wave (d : Z) (data : Z) : list event :=
  concat (map (bit_out_wave d) (bits_of data))
  ++ [SclLow; SdaHigh; DelayUs d; SclHigh; DelayUs d; SclLow].

(** One data bit as [llRead] clocks it in, SDA released. *)
Definition bit_in_wave (d : Z) : list event :=
  [SclLow; SdaHigh; DelayUs d; SclHigh; DelayUs d].

(** A byte shifted in, followed by the acknowledge bit the master
    drives: SDA low to acknowledge, released otherwise. *)
Definition byte_in_wave (d : Z) (sendAck : bool) : list event :=
  concat (replicate 8 (bit_in_wave d))
  ++ [SclLow; level_event (negb sendAck); DelayUs d; SclHigh; DelayUs d;
      DelayUs d; SclLow].

Definition start_wave (d : Z) : list event :=
  [SdaLow; DelayUs d; SclLow; DelayUs d].

Definition repeated_start_wave (d : Z) : list event :=
  [SclLow; DelayUs d; SdaHigh; DelayUs d; SclHigh; DelayUs d; SdaLow;
   DelayUs d].

Definition stop_wave (d : Z) : list event :=
  [SclLow; DelayUs d; SdaLow; DelayUs d; SclHigh; DelayUs d; SdaHigh;
   DelayUs d].

(** The levels [llWrite] puts on SDA: bit 7 of the byte as the loop has
    shifted it so far. *)
Fixpoint shifted_bits (i : nat) (data : Z) : list bool :=
  match i with
  | O => []
  | S i' =>
      negb (Z.land data 0x80 =? 0) :: shifted_bits i' (u8 (Z.shiftl data 1))
  end.

(** The next [n] samples of a line script; an exhausted script reads
    HIGH. *)
Fixpoint next_samples (n : nat) (script : list bool) : list bool :=
  match n with
  | O => []
  | S n' => hd true script :: next_samples n' (tail script)
  end.

(** What [llRead] does to the referenced byte for one sampled level. *)
Definition shift_in (data : Z) (level : bool) : Z :=
  let data := u8 (Z.shiftl data 1) in
  if level then Z.lor data 1 else data.

(** The bytes that [n] successive reads assemble from a script of SDA
    levels, eight samples each. *)
Fixpoint bytes_of_samples (n : nat) (script : list bool) : list Z :=
  match n with
  | O => []
  | S n' =>
      foldl shift_in 0 (next_samples 8 script)
      :: bytes_of_samples n' (drop 8 script)
  end.

(** The data phase of a request for [quantity] bytes, at least one: every
    byte but the last is acknowledged by the master. *)
Definition request_wave (d : Z) (quantity : nat) : list event :=
  concat (replicate (quantity - 1) (byte_in_wave d true))
  ++ byte_in_wave d false.

(** ** Sequences of public calls *)

(** The public operations that touch the buffers, with their arguments;
    an argument of type [uint8_t] is converted on the way in. *)
Inductive api_call : Type :=
| CallWrite (data : Z)
| CallWriteBytes (data : list Z)
| CallBeginTransmission (address : Z)
| CallEndTransmission (sendStop : Z)
| CallRequestFrom (address quantity sendStop : Z)
| CallRead.

Definition call (c : api_call) (s : SoftWire) (w : bus)
  : outcome (SoftWire * bus) :=
  match c with
  | CallWrite data =>
      match write (u8 data) s with
      | Done (_, s') => Done (s', w)
      | OutOfBounds => OutOfBounds
      end
  | CallWriteBytes data =>
      match write_bytes (map u8 data) s with
      | Done (_, s') => Done (s', w)
      | OutOfBounds => OutOfBounds
      end
  | CallBeginTransmission address =>
      Done (beginTransmission (u8 address) s, w)
  | CallEndTransmission sendStop =>
      match endTransmission s (u8 sendStop) w with
      | Done (_, w') => Done (s, w')
      | OutOfBounds => OutOfBounds
      end
  | CallRequestFrom address quantity sendStop =>
      match requestFrom s (u8 address) (u8 quantity) (u8 sendStop) w with
      | Done (_, s', w') => Done (s', w')
      | OutOfBounds => OutOfBounds
      end
  | CallRead =>
      match read s with
      | Done (_, s') => Done (s', w)
      | OutOfBounds => OutOfBounds
      end
  end.

Fixpoint calls (cs : list api_call) (s : SoftWire) (w : bus)
  : outcome (SoftWire * bus) :=
  match cs with
  | [] => Done (s, w)
  | c :: rest =>
      match call c s w with
      | Done (s', w') => calls rest s' w'
      | OutOfBounds => OutOfBounds
      end
  end.

(** The calls that use the transmit side only. *)
Definition transmit_call (c : api_call) : bool :=
  match c with
  | CallRequestFrom _ _ _ | CallRead => false
  | _ => true
  end.

(** * Properties *)

(** ** CRC-8 *)

(** A boolean check that holds on [0 .. n-1] holds for every integer of
    that range. *)
Lemma forall_below (P : Z -> bool) (n : nat) :
  forallb P (map Z.of_nat (seq 0 n)) = true ->
  forall z, 0 <= z < Z.of_nat n -> P z = true.
Proof.
  intros Hall z Hz.
  rewrite forallb_forall in Hall.
  apply Hall, in_map_iff.
  exists (Z.to_nat z). split; [lia|].
  apply in_seq. lia.
Qed.

Lemma u8_range z : 0 <= u8 z < 256.
Proof. unfold u8. apply Z.mod_pos_bound. lia. Qed.

Lemma u8_small z : 0 <= z < 256 -> u8 z = z.
Proof. intros. unfold u8. apply Z.mod_small. lia. Qed.

Lemma crc8_shift_spec crc :
  0 <= crc < 256 ->
  crc8_shift crc = crc8_step_spec crc /\ 0 <= crc8_step_spec crc < 256.
Proof.
  intros Hc.
  pose proof (forall_below
    (fun c => (crc8_shift c =? crc8_step_spec c) &&
              (0 <=? crc8_step_spec c) && (crc8_step_spec c <? 256))
    256 eq_refl crc Hc) as H.
  cbv beta in H.
  apply andb_true_iff in H as [H H3]. apply andb_true_iff in H as [H1 H2].
  lia.
Qed.

Lemma crc8_loop_spec i crc :
  0 <= crc < 256 ->
  crc8_loop i crc = Nat.iter i crc8_step_spec crc /\
  0 <= crc8_loop i crc < 256.
Proof.
  revert crc. induction i as [|i IH]; intros crc Hc; [done|].
  destruct (crc8_shift_spec crc Hc) as [Heq Hr].
  cbn [crc8_loop]. rewrite Nat.iter_succ_r, Heq. apply IH, Hr.
Qed.

(** C9. [crc8_update] is the CRC-8 step of the generator 0x107: the byte
    is XORed into the running value, then eight shift-and-conditional-XOR
    steps follow, and the result is again an 8-bit value.  Folded from 0
    over the payload [0x00] it gives 0x00, and folding a payload equals
    folding its first part and then its second part from the intermediate
    value, wherever the payload is split. *)
Theorem crc8_update_fold :
  (forall crc data,
     crc8_update crc data = crc8_update_spec crc data /\
     0 <= crc8_update crc data < 256) /\
  crc8 0 [0] = 0 /\
  (forall init payload k,
     crc8 init payload = crc8 (crc8 init (take k payload)) (drop k payload)).
Proof.
  split; [|split].
  - intros crc data. unfold crc8_update, crc8_update_spec.
    apply crc8_loop_spec, u8_range.
  - reflexivity.
  - intros init payload k. unfold crc8.
    rewrite <- foldl_app, take_drop. reflexivity.
Qed.

(** ** Clock configuration *)

(** C7. For a nonzero 32-bit frequency, [setClock] leaves the half-bit
    delay at [clamp (1000000 / frequency) 2 510 / 2] microseconds: 5 at
    100 kHz, the floor of 1 above 500 kHz and the ceiling of 255 from
    1960 Hz downwards. *)
Theorem setClock_delay (frequency : Z) (s : SoftWire) :
  0 < frequency < 2 ^ 32 ->
  _delay_us (setClock frequency s) = clamp (1000000 / frequency) 2 510 / 2 /\
  (frequency = 100000 -> _delay_us (setClock frequency s) = 5) /\
  (500000 < frequency -> _delay_us (setClock frequency s) = 1) /\
  (frequency <= 1960 -> _delay_us (setClock frequency s) = 255).
Proof.
  intros Hf.
  assert (Hd : _delay_us (setClock frequency s)
               = clamp (1000000 / frequency) 2 510 / 2).
  { unfold setClock, setDelay_us, set_delay_us, clamp. cbn [_delay_us].
    change (u32 1000000) with 1000000.
    generalize (1000000 / frequency). intros p.
    destruct (p <? 2) eqn:H2; [apply Z.ltb_lt in H2|apply Z.ltb_ge in H2].
    - replace (Z.max 2 (Z.min 510 p)) with 2 by lia. reflexivity.
    - destruct (2 * 255 <? p) eqn:H5;
        [apply Z.ltb_lt in H5|apply Z.ltb_ge in H5].
      + replace (Z.max 2 (Z.min 510 p)) with 510 by lia. reflexivity.
      + replace (Z.max 2 (Z.min 510 p)) with p by lia.
        assert (1 <= p / 2 <= 255) by (Z.div_mod_to_equations; lia).
        lia. }
  rewrite Hd. split; [reflexivity|]. unfold clamp. split; [|split].
  - intros ->. reflexivity.
  - intros Hhi.
    assert (0 <= 1000000 / frequency < 2).
    { split; [apply Z.div_pos; lia|apply Z.div_lt_upper_bound; lia]. }
    replace (Z.max 2 (Z.min 510 (1000000 / frequency))) with 2 by lia.
    reflexivity.
  - intros Hlo.
    assert (510 <= 1000000 / frequency)
      by (apply Z.div_le_lower_bound; lia).
    replace (Z.max 2 (Z.min 510 (1000000 / frequency))) with 510 by lia.
    reflexivity.
Qed.

Lemma setClock_delay_witness :
  0 < 400000 < 2 ^ 32 /\
  _delay_us (setClock 400000 (attached [] []))
  = clamp (1000000 / 400000) 2 510 / 2.
Proof.
  split; [lia|].
  destruct (setClock_delay 400000 (attached [] [])) as [H _]; [lia|exact H].
Defined.

(** ** Buffered writer *)

Lemma write_room (d : Z) (s : SoftWire) :
  tx_wf s -> _txBufferIndex s < _txBufferSize s ->
  write d s =
    Done (1, set_txBufferIndex (_txBufferIndex s + 1)
               (set_txBuffer (<[Z.to_nat (_txBufferIndex s) := d]> (_txBuffer s)) s)).
Proof.
  intros (Hlen & Hidx & Hsize) Hroom. unfold write.
  destruct (_txBufferSize s <=? _txBufferIndex s) eqn:E;
    [apply Z.leb_le in E; lia|].
  destruct (decide _) as [_|Hn]; [|lia].
  rewrite u8_small by lia. reflexivity.
Qed.

Lemma write_full (d : Z) (s : SoftWire) :
  _txBufferSize s <= _txBufferIndex s -> write d s = Done (0, setWriteError s).
Proof.
  intros Hfull. unfold write.
  destruct (_txBufferSize s <=? _txBufferIndex s) eqn:E;
    [reflexivity|apply Z.leb_gt in E; lia].
Qed.

Lemma write_loop_spec (data : list Z) :
  forall (r : Z) (s : SoftWire),
    tx_wf s ->
    let n := Z.min (Z.of_nat (length data)) (_txBufferSize s - _txBufferIndex s) in
    exists s',
      write_loop data r s = Done (r + n, s') /\
      tx_wf s' /\
      _txBufferSize s' = _txBufferSize s /\
      _txBufferIndex s' = _txBufferIndex s + n /\
      take (Z.to_nat (_txBufferIndex s)) (_txBuffer s')
        = take (Z.to_nat (_txBufferIndex s)) (_txBuffer s) /\
      (forall j : nat, (j < Z.to_nat n)%nat ->
         _txBuffer s' !! (Z.to_nat (_txBufferIndex s) + j)%nat = data !! j) /\
      (n < Z.of_nat (length data) -> write_error s' = 1) /\
      (write_error s = 1 -> write_error s' = 1).
Proof.
  induction data as [|d rest IH]; intros r s Hwf n.
  - exists s. subst n. cbn [length write_loop].
    destruct Hwf as (Hlen & Hidx & Hsize).
    replace (Z.min (Z.of_nat 0) _) with 0 by lia.
    rewrite Z.add_0_r.
    repeat split; try done; try lia.
    all: intros j Hj; cbn in Hj; lia.
  - pose proof Hwf as (Hlen & Hidx & Hsize).
    cbn [write_loop].
    destruct (Z_lt_le_dec (_txBufferIndex s) (_txBufferSize s)) as [Hroom|Hfull].
    + rewrite write_room by done.
      set (i := Z.to_nat (_txBufferIndex s)).
      set (s1 := set_txBufferIndex _ _).
      assert (Hwf1 : tx_wf s1).
      { subst s1. unfold tx_wf. cbn. rewrite length_insert. lia. }
      destruct (IH (r + 1) s1 Hwf1)
        as (s' & Hrun & Hwf' & Hsz & Hix & Hkeep & Hnew & Herr & Hsticky).
      assert (Hi1 : Z.to_nat (_txBufferIndex s1) = S i) by (subst s1 i; cbn; lia).
      rewrite Hi1 in Hkeep, Hnew.
      exists s'. subst n. cbn [length].
      replace (_txBufferIndex s1) with (_txBufferIndex s + 1) in * by done.
      replace (_txBufferSize s1) with (_txBufferSize s) in * by done.
      replace (write_error s1) with (write_error s) in * by done.
      replace (_txBuffer s1) with (<[i := d]> (_txBuffer s)) in * by done.
      split; [rewrite Hrun; do 2 f_equal; lia|].
      split; [done|]. split; [done|]. split; [lia|].
      split; [|split; [|split]].
      * assert (Hk : take i (take (S i) (_txBuffer s'))
                     = take i (take (S i) (<[i := d]> (_txBuffer s))))
          by (rewrite Hkeep; done).
        rewrite !take_take, !Nat.min_l in Hk by lia.
        rewrite Hk. apply take_insert_ge. lia.
      * intros [|j] Hj.
        -- rewrite Nat.add_0_r. cbn [lookup list_lookup].
           rewrite <- (lookup_take_lt _ (S i)) by lia.
           rewrite Hkeep, lookup_take_lt by lia.
           apply list_lookup_insert_eq. lia.
        -- replace (i + S j)%nat with (S i + j)%nat by lia.
           rewrite Hnew by lia. reflexivity.
      * intros Hshort. apply Herr. lia.
      * done.
    + rewrite write_full by done.
      assert (Hwf1 : tx_wf (setWriteError s)) by done.
      destruct (IH (r + 0) (setWriteError s) Hwf1)
        as (s' & Hrun & Hwf' & Hsz & Hix & Hkeep & Hnew & Herr & Hsticky).
      exists s'. subst n. cbn [length].
      replace (_txBufferIndex (setWriteError s)) with (_txBufferIndex s) in * by done.
      replace (_txBufferSize (setWriteError s)) with (_txBufferSize s) in * by done.
      replace (_txBuffer (setWriteError s)) with (_txBuffer s) in * by done.
      replace (Z.min (Z.of_nat (length rest)) (_txBufferSize s - _txBufferIndex s))
        with 0 in * by lia.
      replace (Z.min (Z.of_nat (S (length rest))) (_txBufferSize s - _txBufferIndex s))
        with 0 by lia.
      split; [rewrite Hrun; do 2 f_equal; lia|].
      repeat split; try done; try lia.
      all: try apply Hwf'.
      all: try (intros j Hj; cbn in Hj; lia).
      all: intros _; apply Hsticky; reflexivity.
Qed.

(** C8. On a well-formed transmit side, which every write leaves
    well-formed again: while capacity remains a single-byte write stores
    the byte at the cursor, advances the cursor and returns 1; on a full buffer it returns 0, changes neither buffer
    nor cursor and sets the write-error flag; the multi-byte write returns
    the number of bytes it appended, which are the leading bytes of its
    argument, and raises the flag when that number is short; the flag is
    never cleared, and the bytes buffered before the call are unchanged. *)
Theorem write_contract (s : SoftWire) :
  tx_wf s ->
  (forall d, _txBufferIndex s < _txBufferSize s ->
     exists s',
       write d s = Done (1, s') /\
       tx_wf s' /\
       _txBufferIndex s' = _txBufferIndex s + 1 /\
       _txBuffer s' !! Z.to_nat (_txBufferIndex s) = Some d /\
       take (Z.to_nat (_txBufferIndex s)) (_txBuffer s')
         = take (Z.to_nat (_txBufferIndex s)) (_txBuffer s) /\
       write_error s' = write_error s) /\
  (forall d, _txBufferSize s <= _txBufferIndex s ->
     exists s',
       write d s = Done (0, s') /\
       tx_wf s' /\
       _txBufferIndex s' = _txBufferIndex s /\
       _txBuffer s' = _txBuffer s /\
       write_error s' = 1) /\
  (forall data,
     let n := Z.min (Z.of_nat (length data))
                (_txBufferSize s - _txBufferIndex s) in
     exists s',
       write_bytes data s = Done (n, s') /\
       tx_wf s' /\
       _txBufferIndex s' = _txBufferIndex s + n /\
       (forall j : nat, (j < Z.to_nat n)%nat ->
          _txBuffer s' !! (Z.to_nat (_txBufferIndex s) + j)%nat = data !! j) /\
       take (Z.to_nat (_txBufferIndex s)) (_txBuffer s')
         = take (Z.to_nat (_txBufferIndex s)) (_txBuffer s) /\
       (n < Z.of_nat (length data) -> write_error s' = 1) /\
       (write_error s = 1 -> write_error s' = 1)).
Proof.
  intros Hwf. pose proof Hwf as (Hlen & Hidx & Hsize).
  split; [|split].
  - intros d Hroom. eexists. split; [apply write_room; done|].
    split; [unfold tx_wf; cbn; rewrite length_insert; lia|].
    cbn. split; [done|]. split; [apply list_lookup_insert_eq; lia|].
    split; [apply take_insert_ge; lia|done].
  - intros d Hfull. eexists. split; [apply write_full; done|]. done.
  - intros data n.
    destruct (write_loop_spec data 0 s Hwf)
      as (s' & Hrun & Hwf' & _ & Hix & Hkeep & Hnew & Herr & Hsticky).
    exists s'. unfold write_bytes. rewrite Hrun. done.
Qed.

Lemma write_contract_witness :
  tx_wf (attached [] [0; 0]) /\
  exists s',
    write_bytes [7; 8; 9] (attached [] [0; 0]) = Done (2, s') /\
    _txBuffer s' !! 0%nat = Some 7 /\
    write_error s' = 1.
Proof.
  assert (Hwf : tx_wf (attached [] [0; 0])) by (unfold tx_wf; cbn; lia).
  split; [exact Hwf|].
  destruct (write_contract (attached [] [0; 0]) Hwf) as (_ & _ & Hmany).
  destruct (Hmany [7; 8; 9]) as (s' & Hrun & _ & _ & Hnew & _ & Herr & _).
  exists s'. split; [exact Hrun|].
  split; [apply (Hnew 0%nat); cbn; lia|apply Herr; cbn; lia].
Defined.

(** ** Buffered reader *)

Lemma read_exhausted (s : SoftWire) :
  _rxBufferBytesRead s <= _rxBufferIndex s -> read s = Done (-1, s).
Proof.
  intros H. unfold read.
  destruct (_rxBufferIndex s <? _rxBufferBytesRead s) eqn:E;
    [apply Z.ltb_lt in E; lia|reflexivity].
Qed.

(** With an unread byte, [read] advances the cursor first and hands out
    the byte at the new position. *)
Lemma read_unread (s : SoftWire) (b : Z) :
  0 <= _rxBufferIndex s < _rxBufferBytesRead s ->
  _rxBufferBytesRead s <= 255 ->
  _rxBuffer s !! Z.to_nat (_rxBufferIndex s + 1) = Some b ->
  read s = Done (b, set_rxBufferIndex (_rxBufferIndex s + 1) s).
Proof.
  intros Hi Hn Hb. unfold read.
  destruct (_rxBufferIndex s <? _rxBufferBytesRead s) eqn:E;
    [|apply Z.ltb_ge in E; lia].
  rewrite u8_small by lia. rewrite Hb. reflexivity.
Qed.

(** C2. With two unread bytes 0xA5, 0x3C in the buffer and the cursor on
    the first, [peek] shows 0xA5 at the cursor but [read] returns 0x3C; a
    second [read] hands out a byte that was never received, and in a
    block of exactly two bytes it indexes past the end.  The exhausted
    case is as claimed: -1, cursor unchanged. *)
Theorem read_skips_byte_at_cursor :
  peek two_received = Done 165 /\
  read two_received = Done (60, set_rxBufferIndex 1 two_received) /\
  read (set_rxBufferIndex 1 two_received)
    = Done (0, set_rxBufferIndex 2 two_received) /\
  read (set_rxBufferIndex 1 (set_rxBuffer [165; 60] two_received))
    = OutOfBounds /\
  read (set_rxBufferIndex 2 two_received)
    = Done (-1, set_rxBufferIndex 2 two_received).
Proof. repeat split. Qed.

(** ** Bit engine *)

Lemma spin_frame (scl : list bool) :
  forall expired high scl' expired',
    spin scl expired = (high, (scl', expired')) ->
    (length scl' <= length scl)%nat /\
    (high = false -> (length scl' < length scl)%nat).
Proof.
  induction scl as [|[] scl IH]; intros expired high scl' expired' H;
    cbn in H.
  - inversion H; subst. split; [done|discriminate].
  - inversion H; subst. cbn. split; [lia|discriminate].
  - destruct expired as [|[] expired].
    + apply IH in H. cbn. split; [lia|]. intros Hh. apply H in Hh. lia.
    + inversion H; subst. cbn. split; [lia|]. intros _. lia.
    + apply IH in H. cbn. split; [lia|]. intros Hh. apply H in Hh. lia.
Qed.

Lemma wait_scl_high_frame (w w' : bus) (high : bool) :
  wait_scl_high w = (high, w') ->
  trace w' = trace w /\
  sda_released w' = sda_released w /\
  scl_released w' = scl_released w /\
  sda_in w' = sda_in w /\
  (length (scl_in w') <= length (scl_in w))%nat /\
  (high = false -> (length (scl_in w') < length (scl_in w))%nat).
Proof.
  unfold wait_scl_high.
  destruct (spin (scl_in w) (expired_in w)) as [h [scl' expired']] eqn:E.
  intros [= <- <-]. cbn.
  apply spin_frame in E. tauto.
Qed.

(** The equation of the polling loop of the source: sample SCL; when it
    is LOW poll the timer, and go round again when that has not expired. *)
Lemma wait_scl_high_unfold (w : bus) :
  wait_scl_high w =
    let (level, w1) := readScl w in
    if level then (true, w1)
    else
      let (expired, w2) := isExpired w1 in
      if expired then (false, w2) else wait_scl_high w2.
Proof.
  destruct w as [sda scl expired sr cr tr].
  unfold wait_scl_high, readScl, isExpired. cbn.
  destruct scl as [|[] scl]; cbn; try reflexivity.
  destruct expired as [|[] expired]; cbn; reflexivity.
Qed.

Lemma stretch_with_ext (f g : bus -> bus) (w : bus) :
  (forall w2, (length (scl_in w2) < length (scl_in w))%nat -> f w2 = g w2) ->
  stretch_with f w = stretch_with g w.
Proof.
  intros Hfg. unfold stretch_with.
  destruct (wait_scl_high (setSclHigh w)) as [high w2] eqn:E.
  destruct high; [reflexivity|].
  apply wait_scl_high_frame in E as (_ & _ & _ & _ & _ & Hlt).
  rewrite Hfg; [reflexivity|]. apply Hlt. reflexivity.
Qed.

Lemma stop_with_ext (f g : bus -> bus) (s : SoftWire) (w : bus) :
  (forall w2, (length (scl_in w2) < length (scl_in w))%nat -> f w2 = g w2) ->
  stop_with f s w = stop_with g s w.
Proof.
  intros Hfg. unfold stop_with.
  rewrite (stretch_with_ext f g); [reflexivity|]. exact Hfg.
Qed.

Lemma stop_rec_enough (s : SoftWire) (n : nat) :
  forall m w,
    (length (scl_in w) <= n)%nat -> (length (scl_in w) <= m)%nat ->
    stop_rec n s w = stop_rec m s w.
Proof.
  induction n as [|n IH]; intros m w Hn Hm.
  - destruct m; cbn [stop_rec]; apply stop_with_ext; intros w2 Hw2; lia.
  - destruct m as [|m]; cbn [stop_rec]; apply stop_with_ext; intros w2 Hw2;
      [lia|].
    f_equal. apply IH; lia.
Qed.

(** [stop] satisfies the equation of the source: its clock-release wait
    is [setSclHighAndStretch]. *)
Lemma stop_unfold (s : SoftWire) (w : bus) :
  stop s w =
    let w := setSclLow w in
    let w := delayMicroseconds (_delay_us s) w in
    let w := setSdaLow w in
    let w := delayMicroseconds (_delay_us s) w in
    let (ok, w) := setSclHighAndStretch s w in
    if negb ok then (timedOut, w)
    else
      let w := delayMicroseconds (_delay_us s) w in
      let w := setSdaHigh w in
      let w := delayMicroseconds (_delay_us s) w in
      (ack, w).
Proof.
  change (stop s w = stop_with (fun w' => snd (stop s w')) s w).
  unfold stop at 1.
  destruct (length (scl_in w)) as [|n] eqn:Hlen; cbn [stop_rec];
    apply stop_with_ext; intros w2 Hw2; [lia|].
  unfold stop. f_equal. apply stop_rec_enough; lia.
Qed.

Global Instance later_preorder : PreOrder later.
Proof.
  split.
  - intros w. unfold later. reflexivity.
  - intros w1 w2 w3. unfold later. apply transitivity.
Qed.

Lemma later_cons (w w' : bus) (e : event) :
  trace w' = e :: trace w -> later w w'.
Proof. intros H. unfold later. rewrite H. apply suffix_cons_r. reflexivity. Qed.

Lemma later_same (w w' : bus) : trace w' = trace w -> later w w'.
Proof. intros H. unfold later. rewrite H. reflexivity. Qed.

Lemma stretch_with_cases (f : bus -> bus) (w w' : bus) (ok : bool) :
  stretch_with f w = (ok, w') ->
  exists w2,
    trace w2 = SclHigh :: trace w /\
    sda_released w2 = sda_released w /\
    scl_released w2 = true /\
    sda_in w2 = sda_in w /\
    (length (scl_in w2) <= length (scl_in w))%nat /\
    if ok then w' = w2
    else (length (scl_in w2) < length (scl_in w))%nat /\ w' = f w2.
Proof.
  unfold stretch_with.
  destruct (wait_scl_high (setSclHigh w)) as [high w2] eqn:E.
  apply wait_scl_high_frame in E as (Ht & Hs & Hc & Hi & Hle & Hlt).
  cbn in *.
  destruct high; intros [= <- <-]; exists w2; repeat split; try done.
  apply Hlt. reflexivity.
Qed.

Lemma stop_rec_later (s : SoftWire) (n : nat) :
  forall w, later w (snd (stop_rec n s w)).
Proof.
  induction n as [|n IH]; intros w; cbn [stop_rec]; unfold stop_with;
    match goal with
    | |- context [stretch_with ?f ?w0] =>
        destruct (stretch_with f w0) as [ok w'] eqn:E;
        apply stretch_with_cases in E as (w2 & Ht & _ & _ & _ & _ & Hk)
    end; cbn in Ht;
    assert (Hw2 : later w w2)
      by (unfold later; rewrite Ht; do 5 apply suffix_cons_r; reflexivity).
  - destruct ok; cbn.
    + subst w'. unfold later in *. cbn. do 3 apply suffix_cons_r. exact Hw2.
    + destruct Hk as [_ ->]. exact Hw2.
  - destruct ok; cbn.
    + subst w'. unfold later in *. cbn. do 3 apply suffix_cons_r. exact Hw2.
    + destruct Hk as [_ ->]. etrans; [exact Hw2|apply IH].
Qed.

Lemma stop_later (s : SoftWire) (w : bus) : later w (snd (stop s w)).
Proof. apply stop_rec_later. Qed.

(** After [stop] the driver holds neither line, whatever the result. *)
Lemma stop_rec_idle (s : SoftWire) (n : nat) :
  forall w, (length (scl_in w) <= n)%nat -> bus_idle (snd (stop_rec n s w)).
Proof.
  induction n as [|n IH]; intros w Hn; cbn [stop_rec]; unfold stop_with;
    match goal with
    | |- context [stretch_with ?f ?w0] =>
        destruct (stretch_with f w0) as [ok w'] eqn:E;
        apply stretch_with_cases in E as (w2 & _ & _ & Hc & _ & Hle & Hk)
    end; cbn in Hle.
  - destruct ok; cbn.
    + subst w'. split; [reflexivity|exact Hc].
    + destruct Hk as [Hlt _]. cbn in Hlt. lia.
  - destruct ok; cbn.
    + subst w'. split; [reflexivity|exact Hc].
    + destruct Hk as [Hlt ->]. cbn in Hlt. apply IH. lia.
Qed.

Lemma stop_idle (s : SoftWire) (w : bus) : bus_idle (snd (stop s w)).
Proof. apply stop_rec_idle. reflexivity. Qed.

Lemma stopped_since_idle (s : SoftWire) (w w' : bus) :
  stopped_since s w w' -> bus_idle w'.
Proof. intros (w0 & _ & ->). apply stop_idle. Qed.

Lemma stopped_since_later (s : SoftWire) (w w' : bus) :
  stopped_since s w w' -> later w w'.
Proof. intros (w0 & Hl & ->). etrans; [exact Hl|apply stop_later]. Qed.

Lemma stopped_since_from (s : SoftWire) (w1 w2 w' : bus) :
  later w1 w2 -> stopped_since s w2 w' -> stopped_since s w1 w'.
Proof.
  intros H12 (w0 & Hl & ->). exists w0. split; [|reflexivity].
  etrans; eassumption.
Qed.

Lemma stop_stopped_since (s : SoftWire) (w1 w2 : bus) :
  later w1 w2 -> stopped_since s w1 (snd (stop s w2)).
Proof. intros H. exists w2. split; [exact H|reflexivity]. Qed.

(** The clock-release wait either sees SCL high, or has reset the bus
    with a stop before reporting failure. *)
Lemma setSclHighAndStretch_cases (s : SoftWire) (w w' : bus) (ok : bool) :
  setSclHighAndStretch s w = (ok, w') ->
  if ok then trace w' = SclHigh :: trace w /\ sda_in w' = sda_in w
  else stopped_since s w w'.
Proof.
  unfold setSclHighAndStretch. intros E.
  apply stretch_with_cases in E as (w2 & Ht & _ & _ & Hi & _ & Hk).
  destruct ok.
  - subst w'. done.
  - destruct Hk as [_ ->]. apply stop_stopped_since.
    eapply later_cons, Ht.
Qed.

Lemma setSclHighAndStretch_later (s : SoftWire) (w w' : bus) (ok : bool) :
  setSclHighAndStretch s w = (ok, w') -> later w w'.
Proof.
  intros E. apply setSclHighAndStretch_cases in E. destruct ok.
  - eapply later_cons, E.
  - eapply stopped_since_later, E.
Qed.

Lemma isExpired_frame (w w' : bus) (e : bool) :
  isExpired w = (e, w') ->
  trace w' = trace w /\ sda_in w' = sda_in w /\ scl_in w' = scl_in w /\
  sda_released w' = sda_released w /\ scl_released w' = scl_released w.
Proof.
  unfold isExpired. destruct (expired_in w); intros [= <- <-]; done.
Qed.

Lemma readSda_frame (w w' : bus) (level : bool) :
  readSda w = (level, w') ->
  trace w' = trace w /\ scl_in w' = scl_in w /\
  expired_in w' = expired_in w /\
  sda_released w' = sda_released w /\ scl_released w' = scl_released w.
Proof.
  unfold readSda. destruct (sda_in w); intros [= <- <-]; done.
Qed.

(** [later] across the pin and delay operations, which only push events. *)
Ltac later_ops :=
  unfold later in *; cbn [trace setSdaLow setSdaHigh setSclLow setSclHigh
                            delayMicroseconds];
  repeat first [assumption | reflexivity | apply suffix_cons_r].

Lemma llWrite_bits_cases (s : SoftWire) (i : nat) :
  forall data w sent w',
    llWrite_bits i s data w = (sent, w') ->
    if sent then later w w' else stopped_since s w w'.
Proof.
  induction i as [|i IH]; intros data w sent w' H; cbn [llWrite_bits] in H.
  - inversion H; subst. reflexivity.
  - set (w1 := delayMicroseconds _ _) in H.
    assert (H1 : later w w1).
    { subst w1. destruct (Z.land data 128 =? 0); later_ops. }
    destruct (setSclHighAndStretch s w1) as [ok w2] eqn:E2.
    pose proof (setSclHighAndStretch_later _ _ _ _ E2) as H2.
    apply setSclHighAndStretch_cases in E2.
    destruct ok; cbn [negb] in H.
    + destruct (isExpired _) as [expired w3] eqn:E3.
      apply isExpired_frame in E3 as (Ht3 & _).
      assert (H3 : later w w3).
      { etrans; [exact H1|]. etrans; [exact H2|].
        unfold later. rewrite Ht3. later_ops. }
      destruct expired.
      * inversion H; subst. apply stop_stopped_since, H3.
      * apply IH in H. destruct sent.
        -- etrans; eassumption.
        -- eapply stopped_since_from; eassumption.
    + inversion H; subst. eapply stopped_since_from; eassumption.
Qed.

Lemma llWrite_cases (s : SoftWire) (data : Z) (w w' : bus) (r : result_t) :
  llWrite s data w = (r, w') ->
  match r with
  | timedOut => stopped_since s w w'
  | _ => later w w'
  end.
Proof.
  unfold llWrite.
  destruct (llWrite_bits 8 s data w) as [sent w1] eqn:E1.
  apply llWrite_bits_cases in E1.
  destruct sent; cbn [negb]; [|intros [= <- <-]; exact E1].
  set (w2 := delayMicroseconds _ _).
  assert (H2 : later w w2) by (subst w2; later_ops).
  destruct (setSclHighAndStretch s w2) as [ok w3] eqn:E3.
  pose proof (setSclHighAndStretch_later _ _ _ _ E3) as H3.
  apply setSclHighAndStretch_cases in E3.
  destruct ok; cbn [negb];
    [|intros [= <- <-]; eapply stopped_since_from; eassumption].
  destruct (readSda w3) as [level w4] eqn:E4.
  apply readSda_frame in E4 as (Ht4 & _).
  intros [= <- <-].
  assert (later w (setSclLow (delayMicroseconds (_delay_us s) w4))).
  { etrans; [exact H2|]. etrans; [exact H3|].
    unfold later. cbn. rewrite Ht4. later_ops. }
  destruct level; assumption.
Qed.

Lemma llRead_bits_cases (s : SoftWire) (i : nat) :
  forall data w received data' w',
    llRead_bits i s data w = (received, data', w') ->
    if received then later w w' else stopped_since s w w'.
Proof.
  induction i as [|i IH]; intros data w received data' w' H;
    cbn [llRead_bits] in H.
  - inversion H; subst. reflexivity.
  - set (w1 := delayMicroseconds _ _) in H.
    assert (H1 : later w w1) by (subst w1; later_ops).
    destruct (setSclHighAndStretch s w1) as [ok w2] eqn:E2.
    pose proof (setSclHighAndStretch_later _ _ _ _ E2) as H2.
    apply setSclHighAndStretch_cases in E2.
    destruct ok; cbn [negb] in H;
      [|inversion H; subst; eapply stopped_since_from; eassumption].
    destruct (wait_scl_high _) as [high w3] eqn:E3.
    apply wait_scl_high_frame in E3 as (Ht3 & _).
    assert (H3 : later w w3).
    { etrans; [exact H1|]. etrans; [exact H2|].
      unfold later. rewrite Ht3. later_ops. }
    destruct high; cbn [negb] in H;
      [|inversion H; subst; apply stop_stopped_since, H3].
    destruct (readSda w3) as [level w4] eqn:E4.
    apply readSda_frame in E4 as (Ht4 & _).
    assert (H4 : later w w4) by (unfold later in *; rewrite Ht4; exact H3).
    apply IH in H. destruct received.
    + etrans; eassumption.
    + eapply stopped_since_from; eassumption.
Qed.

Lemma llRead_cases (s : SoftWire) (sendAck : bool) (w w' : bus)
      (r : result_t) (data : Z) :
  llRead s sendAck w = (r, data, w') ->
  match r with
  | ack => later w w'
  | nack => False
  | timedOut => stopped_since s w w'
  end.
Proof.
  unfold llRead.
  destruct (llRead_bits 8 s 0 w) as [[received d] w1] eqn:E1.
  apply llRead_bits_cases in E1.
  destruct received; cbn [negb]; [|intros [= <- <- <-]; exact E1].
  set (w2 := delayMicroseconds _ _).
  assert (H2 : later w w2).
  { subst w2. etrans; [exact E1|]. destruct sendAck; later_ops. }
  destruct (setSclHighAndStretch s w2) as [ok w3] eqn:E3.
  pose proof (setSclHighAndStretch_later _ _ _ _ E3) as H3.
  apply setSclHighAndStretch_cases in E3.
  destruct ok; cbn [negb];
    [|intros [= <- <- <-]; eapply stopped_since_from; eassumption].
  destruct (wait_scl_high _) as [high w4] eqn:E4.
  apply wait_scl_high_frame in E4 as (Ht4 & _).
  assert (H4 : later w w4).
  { etrans; [exact H2|]. etrans; [exact H3|].
    unfold later. rewrite Ht4. later_ops. }
  destruct high; cbn [negb]; intros [= <- <- <-].
  - unfold later in *. cbn. later_ops.
  - apply stop_stopped_since, H4.
Qed.

(** C4. Whenever [llWrite] or [llRead] returns timed-out, a stop has been
    issued since the call began and was the last thing done to the bus,
    and the driver holds neither line: the bus is left idle. *)
Theorem timed_out_after_stop (s : SoftWire) (w : bus) :
  (forall data w',
     llWrite s data w = (timedOut, w') ->
     stopped_since s w w' /\ bus_idle w') /\
  (forall sendAck data w',
     llRead s sendAck w = (timedOut, data, w') ->
     stopped_since s w w' /\ bus_idle w').
Proof.
  split.
  - intros data w' H. apply llWrite_cases in H.
    split; [exact H|eapply stopped_since_idle, H].
  - intros sendAck data w' H. apply llRead_cases in H.
    split; [exact H|eapply stopped_since_idle, H].
Qed.

Lemma timed_out_after_stop_witness :
  llWrite (attached [] []) 0xA0 stretched_clock
    = (timedOut, snd (llWrite (attached [] []) 0xA0 stretched_clock)) /\
  stopped_since (attached [] []) stretched_clock
    (snd (llWrite (attached [] []) 0xA0 stretched_clock)) /\
  bus_idle (snd (llWrite (attached [] []) 0xA0 stretched_clock)).
Proof.
  split; [reflexivity|].
  apply (proj1 (timed_out_after_stop (attached [] []) stretched_clock) 0xA0).
  reflexivity.
Defined.

(** *** A bus without clock stretching *)

Lemma quiet_stretch (s : SoftWire) (w : bus) :
  quiet w -> setSclHighAndStretch s w = (true, setSclHigh w).
Proof.
  intros [Hc He]. destruct w as [sda scl expired sr cr tr]. cbn in Hc, He.
  subst. reflexivity.
Qed.

Lemma quiet_wait (w : bus) : quiet w -> wait_scl_high w = (true, w).
Proof.
  intros [Hc He]. destruct w as [sda scl expired sr cr tr]. cbn in Hc, He.
  subst. reflexivity.
Qed.

Lemma quiet_isExpired (w : bus) : quiet w -> isExpired w = (false, w).
Proof. intros [_ He]. unfold isExpired. rewrite He. reflexivity. Qed.

Lemma quiet_readSda (w : bus) :
  quiet w ->
  quiet (snd (readSda w)) /\ sda_in (snd (readSda w)) = tail (sda_in w) /\
  fst (readSda w) = hd true (sda_in w).
Proof.
  intros [Hc He]. unfold readSda, quiet.
  destruct (sda_in w) eqn:E; cbn; rewrite ?E; done.
Qed.

Lemma llWrite_bits_quiet (s : SoftWire) (i : nat) :
  forall data w,
    quiet w ->
    exists w', llWrite_bits i s data w = (true, w') /\
               quiet w' /\ sda_in w' = sda_in w.
Proof.
  induction i as [|i IH]; intros data w Hq; cbn [llWrite_bits].
  - exists w. done.
  - set (w1 := delayMicroseconds _ _).
    assert (Hq1 : quiet w1 /\ sda_in w1 = sda_in w)
      by (subst w1; destruct (Z.land data 128 =? 0); done).
    destruct Hq1 as [Hq1 Hs1].
    rewrite quiet_stretch by done. cbn [negb].
    rewrite quiet_isExpired by done.
    destruct (IH (u8 (Z.shiftl data 1))
                (delayMicroseconds (_delay_us s) (setSclHigh w1)))
      as (w' & Hrun & Hq' & Hs'); [done|].
    exists w'. rewrite Hrun. split; [done|]. split; [done|].
    rewrite Hs'. exact Hs1.
Qed.

(** Without stretching, a byte goes out and its result is the
    acknowledge sample alone. *)
Lemma llWrite_quiet (s : SoftWire) (data : Z) (w : bus) :
  quiet w ->
  exists w',
    llWrite s data w = (if hd true (sda_in w) then nack else ack, w') /\
    quiet w' /\ sda_in w' = tail (sda_in w).
Proof.
  intros Hq. unfold llWrite.
  destruct (llWrite_bits_quiet s 8 data w Hq) as (w1 & -> & Hq1 & Hs1).
  cbn [negb].
  rewrite quiet_stretch by done. cbn [negb].
  set (w2 := setSclHigh _).
  assert (Hq2 : quiet w2) by done.
  destruct (quiet_readSda w2 Hq2) as (Hq3 & Hs3 & Hl3).
  destruct (readSda w2) as [level w3]. cbn [fst snd] in *.
  eexists. split; [rewrite Hl3; subst w2; cbn [sda_in setSclHigh
    delayMicroseconds setSdaHigh setSclLow]; rewrite Hs1; reflexivity|].
  split; [done|]. cbn. rewrite Hs3. subst w2. cbn. rewrite Hs1. reflexivity.
Qed.

Lemma llRead_bits_quiet (s : SoftWire) (i : nat) :
  forall data w,
    quiet w ->
    exists data' w', llRead_bits i s data w = (true, data', w') /\ quiet w'.
Proof.
  induction i as [|i IH]; intros data w Hq; cbn [llRead_bits].
  - exists data, w. done.
  - rewrite quiet_stretch by done. cbn [negb].
    rewrite quiet_wait by done. cbn [negb].
    set (w1 := delayMicroseconds _ (setSclHigh _)).
    assert (Hq1 : quiet w1) by done.
    destruct (quiet_readSda w1 Hq1) as (Hq2 & _ & _).
    destruct (readSda w1) as [level w2]. cbn [snd] in Hq2.
    apply IH, Hq2.
Qed.

Lemma llRead_quiet (s : SoftWire) (sendAck : bool) (w : bus) :
  quiet w ->
  exists data w', llRead s sendAck w = (ack, data, w') /\ quiet w'.
Proof.
  intros Hq. unfold llRead.
  destruct (llRead_bits_quiet s 8 0 w Hq) as (data & w1 & -> & Hq1).
  cbn [negb].
  set (w2 := delayMicroseconds _ _).
  assert (Hq2 : quiet w2) by (subst w2; destruct sendAck; done).
  rewrite quiet_stretch by done. cbn [negb].
  rewrite quiet_wait by done. cbn [negb].
  eexists _, _. split; [reflexivity|done].
Qed.

Lemma start_quiet (s : SoftWire) (address mode : Z) (w : bus) :
  quiet w ->
  exists w',
    start s address mode w = (if hd true (sda_in w) then nack else ack, w') /\
    quiet w' /\ sda_in w' = tail (sda_in w).
Proof.
  intros Hq. unfold start, llStart.
  set (w1 := delayMicroseconds _ _).
  assert (Hq1 : quiet w1) by done.
  destruct (llWrite_quiet s (u8 (Z.shiftl address 1 + mode)) w1 Hq1)
    as (w' & Hrun & Hq' & Hs').
  exists w'. split; [exact Hrun|done].
Qed.

(** *** Start with retry *)

(** [llStartWait] shifts the address out at most once: it answers
    acknowledged exactly when the deadline has not expired at entry and
    that one attempt is acknowledged, and timed-out in every other case. *)
Lemma llStartWait_single_attempt (s : SoftWire) (rawAddr : Z) (w : bus) :
  fst (llStartWait s rawAddr w) =
    let (expired, w1) := isExpired w in
    if expired then timedOut
    else
      match fst (llWrite s rawAddr
                   (delayMicroseconds (_delay_us s) (setSdaLow w1))) with
      | ack => ack
      | _ => timedOut
      end.
Proof.
  unfold llStartWait. destruct (isExpired w) as [[] w1]; [reflexivity|].
  destruct (llWrite _ _ _) as [[] w2]; reflexivity.
Qed.

(** C3. The slave does not acknowledge the first attempt and no deadline
    has expired.  [llStartWait] answers timed-out after that single
    attempt, leaving the acknowledge of a second attempt unsampled, where
    a stop followed by a second attempt would have been acknowledged. *)
Theorem llStartWait_gives_up_on_nack :
  fst (isExpired busy_then_ready) = false /\
  fst (llStartWait (attached [] []) 0xA0 busy_then_ready) = timedOut /\
  sda_in (snd (llStartWait (attached [] []) 0xA0 busy_then_ready)) = [false] /\
  fst <$> llStartWait_spec 2 (attached [] []) 0xA0 busy_then_ready = Some ack.
Proof. repeat split. Qed.

(** ** Transmission *)

Lemma data_status_ack (l : list result_t) :
  (if decide (nack ∈ ack :: l) then Some 3
   else if decide (timedOut ∈ ack :: l) then Some 4 else None)
  = (if decide (nack ∈ l) then Some 3
     else if decide (timedOut ∈ l) then Some 4 else (None : option Z)).
Proof.
  repeat case_decide; try reflexivity;
    repeat match goal with
           | H : _ ∈ _ :: _ |- _ => apply elem_of_cons in H as [H|H]
           | H : ¬ (_ ∈ _ :: _) |- _ => apply not_elem_of_cons in H as [? ?]
           end; done.
Qed.

(** A transmission stops at the first byte that is not acknowledged, so
    its outcomes hold at most one failure. *)
Lemma shift_out_outcomes_one_failure (s : SoftWire) (bytes : list Z) :
  forall w,
    nack ∈ shift_out_outcomes s bytes w ->
    timedOut ∈ shift_out_outcomes s bytes w -> False.
Proof.
  induction bytes as [|b rest IH]; intros w; cbn [shift_out_outcomes].
  - intros H _. apply elem_of_nil in H. exact H.
  - destruct (llWrite s b w) as [r w1].
    destruct r;
      [rewrite decide_True by reflexivity
      |rewrite decide_False by discriminate..];
      intros Hn Ht;
      apply elem_of_cons in Hn as [Hn|Hn];
      apply elem_of_cons in Ht as [Ht|Ht];
      try discriminate;
      try (apply elem_of_nil in Hn; exact Hn);
      try (apply elem_of_nil in Ht; exact Ht).
    eapply IH; eassumption.
Qed.

(** Without a failure among them, the outcomes are one acknowledge per
    byte. *)
Lemma shift_out_outcomes_all_ack (s : SoftWire) (bytes : list Z) :
  forall w,
    nack ∉ shift_out_outcomes s bytes w ->
    timedOut ∉ shift_out_outcomes s bytes w ->
    shift_out_outcomes s bytes w = replicate (length bytes) ack.
Proof.
  induction bytes as [|b rest IH]; intros w; cbn [shift_out_outcomes];
    [reflexivity|].
  destruct (llWrite s b w) as [r w1].
  destruct r;
    [rewrite decide_True by reflexivity
    |rewrite decide_False by discriminate..];
    intros Hn Ht;
    apply not_elem_of_cons in Hn as [Hn1 Hn2];
    apply not_elem_of_cons in Ht as [Ht1 Ht2]; try done.
  cbn. f_equal. apply IH; assumption.
Qed.

Lemma status_of_ack_cases (ds : list result_t) (k : nat) :
  (nack ∈ ds -> timedOut ∈ ds -> False) ->
  (nack ∉ ds -> timedOut ∉ ds -> ds = replicate k ack) ->
  (status_of ack ds = 0 <-> ack = ack /\ ds = replicate k ack) /\
  (status_of ack ds = 2 <-> ack = nack) /\
  (status_of ack ds = 3 <-> ack = ack /\ nack ∈ ds) /\
  (status_of ack ds = 4 <-> ack = timedOut \/ timedOut ∈ ds).
Proof.
  intros Hone Hall. unfold status_of.
  destruct (decide (nack ∈ ds)) as [Hn|Hn];
    [|destruct (decide (timedOut ∈ ds)) as [Ht|Ht]].
  - split; [|split; [|split]]; split; try done.
    + intros [_ Hrep]. rewrite Hrep in Hn.
      apply elem_of_replicate_inv in Hn. discriminate.
    + intros [?|Ht]; [discriminate|]. exfalso. auto.
  - split; [|split; [|split]]; split; try done.
    + intros [_ Hrep]. rewrite Hrep in Ht.
      apply elem_of_replicate_inv in Ht. discriminate.
    + intros [_ ?]. done.
    + intros _. right. exact Ht.
  - split; [|split; [|split]]; split; try done.
    + intros _. split; [reflexivity|]. apply Hall; assumption.
    + intros [_ ?]. done.
    + intros [?|?]; done.
Qed.

Lemma endTransmission_loop_spec (s : SoftWire) (n : nat) :
  forall i w,
    0 <= i -> i + Z.of_nat n <= 255 ->
    (Z.to_nat i + n <= length (_txBuffer s))%nat ->
    exists w',
      endTransmission_loop n i s w =
        Done (let ds := shift_out_outcomes s
                          (take n (drop (Z.to_nat i) (_txBuffer s))) w in
              if decide (nack ∈ ds) then Some 3
              else if decide (timedOut ∈ ds) then Some 4 else None, w').
Proof.
  induction n as [|n IH]; intros i w Hi Hmax Hlen;
    cbn [endTransmission_loop].
  - exists w. reflexivity.
  - destruct (lookup_lt_is_Some_2 (_txBuffer s) (Z.to_nat i)) as [b Hb];
      [lia|].
    rewrite Hb, (drop_S _ _ _ Hb). cbn [take shift_out_outcomes].
    destruct (llWrite s b w) as [r w1]. destruct r.
    + destruct (IH (u8 (i + 1)) w1) as (w' & Hrun).
      * rewrite u8_small; lia.
      * rewrite u8_small; lia.
      * rewrite u8_small; lia.
      * exists w'. rewrite Hrun. cbn zeta.
        rewrite u8_small by lia.
        replace (Z.to_nat (i + 1)) with (S (Z.to_nat i)) by lia.
        rewrite (decide_True (P := ack = ack)) by reflexivity.
        rewrite data_status_ack. reflexivity.
    + exists w1. rewrite (decide_False (P := nack = ack)) by discriminate.
      cbn zeta.
      rewrite decide_True by (apply list_elem_of_singleton; reflexivity).
      reflexivity.
    + exists w1. rewrite (decide_False (P := timedOut = ack)) by discriminate.
      cbn zeta.
      rewrite decide_False
        by (intros H; apply list_elem_of_singleton in H; discriminate).
      rewrite decide_True by (apply list_elem_of_singleton; reflexivity).
      reflexivity.
Qed.

(** C6. On a well-formed object, [endTransmission] returns the status
    that the outcomes of its byte transfers determine: 0 exactly when
    the address byte and every data byte shifted out are acknowledged, 2
    exactly when the address byte is not acknowledged, 3 exactly when a
    data byte is not acknowledged, and 4 exactly when the address byte or
    a data byte times out. *)
Theorem endTransmission_status (s : SoftWire) (sendStop : Z) (w : bus) :
  tx_wf s ->
  exists a ds w',
    tx_outcomes s w = (a, ds) /\
    endTransmission s sendStop w = Done (status_of a ds, w') /\
    (status_of a ds = 0 <->
       a = ack /\ ds = replicate (Z.to_nat (_txBufferIndex s)) ack) /\
    (status_of a ds = 2 <-> a = nack) /\
    (status_of a ds = 3 <-> a = ack /\ nack ∈ ds) /\
    (status_of a ds = 4 <-> a = timedOut \/ timedOut ∈ ds).
Proof.
  intros (Hlen & Hidx & Hsize).
  unfold tx_outcomes, endTransmission.
  destruct (start s (_txAddress s) writeMode w) as [a w1].
  destruct a.
  - rewrite decide_True by reflexivity.
    destruct (endTransmission_loop_spec s (Z.to_nat (_txBufferIndex s)) 0 w1)
      as (w2 & Hrun); [lia|lia|cbn; lia|].
    rewrite Hrun. cbn zeta. change (Z.to_nat 0) with 0%nat. rewrite drop_0.
    set (ds := shift_out_outcomes s _ w1).
    pose proof (shift_out_outcomes_one_failure s
                  (take (Z.to_nat (_txBufferIndex s)) (_txBuffer s)) w1)
      as Hone. fold ds in Hone.
    assert (Hall : nack ∉ ds -> timedOut ∉ ds ->
                   ds = replicate (Z.to_nat (_txBufferIndex s)) ack).
    { intros Hn Ht. subst ds.
      rewrite shift_out_outcomes_all_ack by assumption.
      rewrite length_take_le by lia. reflexivity. }
    assert (Hret : exists w',
               match (if decide (nack ∈ ds) then Some 3
                      else if decide (timedOut ∈ ds) then Some 4
                      else None) with
               | Some code => Done (code, w2)
               | None =>
                   Done (0, if sendStop =? 0 then w2 else snd (stop s w2))
               end = Done (status_of ack ds, w')).
    { unfold status_of. repeat case_decide; eexists; reflexivity. }
    destruct Hret as (w' & Hret).
    exists ack, ds, w'. split; [reflexivity|]. split; [exact Hret|].
    apply status_of_ack_cases; assumption.
  - rewrite decide_False by discriminate.
    exists nack, [], w1. unfold status_of.
    split; [reflexivity|]. split; [reflexivity|].
    repeat split; try done; try (intros [? ?]; done).
    intros [?|H]; [discriminate|]. apply elem_of_nil in H. done.
  - rewrite decide_False by discriminate.
    exists timedOut, [], w1. unfold status_of.
    split; [reflexivity|]. split; [reflexivity|].
    repeat split; try done; try (intros [? ?]; done).
    tauto.
Qed.

Lemma endTransmission_status_witness :
  tx_wf two_queued /\
  exists w', endTransmission two_queued 1 willing_slave = Done (3, w').
Proof.
  assert (Hwf : tx_wf two_queued) by (unfold tx_wf; cbn; lia).
  split; [exact Hwf|].
  destruct (endTransmission_status two_queued 1 willing_slave Hwf)
    as (a & ds & w' & Hout & Hrun & _).
  exists w'. vm_compute in Hout. inversion Hout; subst. exact Hrun.
Defined.

(** ** Requests *)

(** The receive loop leaves the read cursor alone, counts one byte per
    successful transfer, and keeps the block at its size. *)
Lemma requestFrom_loop_frame (n : nat) :
  forall i quantity s w s' w',
    requestFrom_loop n i quantity s w = Done (s', w') ->
    0 <= _rxBufferBytesRead s ->
    _rxBufferBytesRead s + Z.of_nat n <= 255 ->
    _rxBufferIndex s' = _rxBufferIndex s /\
    _rxBufferBytesRead s <= _rxBufferBytesRead s'
      <= _rxBufferBytesRead s + Z.of_nat n /\
    length (_rxBuffer s') = length (_rxBuffer s) /\
    _txBufferIndex s' = _txBufferIndex s /\
    _txBufferSize s' = _txBufferSize s.
Proof.
  induction n as [|n IH]; intros i quantity s w s' w' H Hlo Hhi;
    cbn [requestFrom_loop] in H.
  - inversion H; subst. repeat split; lia.
  - destruct (decide _) as [Hin|Hout]; [|discriminate].
    destruct (llRead s _ w) as [[r data] w1].
    destruct r; cbn [result_code] in H.
    + change (0 =? 0) with true in H. cbv iota in H.
      apply IH in H; cbn in H |- *.
      * rewrite u8_small in H by lia. rewrite length_insert in H.
        repeat split; lia.
      * rewrite u8_small by lia. lia.
      * rewrite u8_small by lia. lia.
    + inversion H; subst. cbn. rewrite length_insert. repeat split; lia.
    + inversion H; subst. cbn. rewrite length_insert. repeat split; lia.
Qed.

(** What [requestFrom] returns is the read cursor as it stood before the
    call; the count of received bytes, which lies between 0 and
    [quantity], is only stored. *)
Lemma requestFrom_result (s : SoftWire) (address quantity sendStop : Z)
      (w : bus) (n : Z) (s' : SoftWire) (w' : bus) :
  0 <= quantity <= 255 ->
  requestFrom s address quantity sendStop w = Done (n, s', w') ->
  n = _rxBufferIndex s /\
  _rxBufferIndex s' = _rxBufferIndex s /\
  0 <= _rxBufferBytesRead s' <= quantity /\
  _txBufferIndex s' = _txBufferIndex s /\
  _txBufferSize s' = _txBufferSize s.
Proof.
  intros Hq. unfold requestFrom.
  destruct (start _ address readMode w) as [r w1].
  destruct (result_code r =? 0).
  - destruct (requestFrom_loop _ _ _ _ _) as [[s1 w2]|] eqn:E;
      [|discriminate].
    apply requestFrom_loop_frame in E; cbn in E |- *; [|lia..].
    intros [= <- <- <-]. repeat split; lia.
  - intros [= <- <- <-]. cbn. repeat split; lia.
Qed.

(** C1. A slave acknowledges its address and supplies two bytes, which
    are received and buffered: [requestFrom] returns 0, the position of
    the read cursor, and not the count 2.  With the cursor at 1 and
    nobody answering, it returns 1 where the address phase failed and
    nothing was received. *)
Theorem requestFrom_returns_cursor :
  (exists w',
     requestFrom (attached [0; 0; 0] []) 0x50 2 1 two_byte_slave
       = Done (0, two_received, w')) /\
  _rxBufferBytesRead two_received = 2 /\
  (exists w',
     requestFrom (set_rxBufferIndex 1 two_received) 0x50 2 1 silent_bus
       = Done (1, set_rxBufferBytesRead 0 (set_rxBufferIndex 1 two_received),
               w')).
Proof.
  split; [eexists; vm_compute; reflexivity|].
  split; [reflexivity|].
  eexists; vm_compute; reflexivity.
Qed.

(** The transmit half of the invariant holds across the public
    operations. *)
Lemma tx_cursor_preserved (s : SoftWire) :
  tx_wf s ->
  (forall d n s', write d s = Done (n, s') -> tx_wf s') /\
  (forall data n s', write_bytes data s = Done (n, s') -> tx_wf s') /\
  (forall address, tx_wf (beginTransmission address s)) /\
  (forall n s', read s = Done (n, s') -> tx_wf s') /\
  (forall address quantity sendStop w n s' w',
     0 <= quantity <= 255 ->
     requestFrom s address quantity sendStop w = Done (n, s', w') ->
     tx_cursor_ok s').
Proof.
  intros Hwf. pose proof Hwf as (Hlen & Hidx & Hsize).
  split; [|split; [|split; [|split]]].
  - intros d n s' H.
    destruct (Z_lt_le_dec (_txBufferIndex s) (_txBufferSize s)) as [Hr|Hf].
    + rewrite write_room in H by done. inversion H; subst.
      unfold tx_wf. cbn. rewrite length_insert. lia.
    + rewrite write_full in H by done. inversion H; subst. exact Hwf.
  - intros data n s' H. unfold write_bytes in H.
    destruct (write_loop_spec data 0 s Hwf) as (s1 & Hrun & Hwf1 & _).
    rewrite Hrun in H. inversion H; subst. exact Hwf1.
  - intros address. unfold tx_wf. cbn. lia.
  - intros n s' H. unfold read in H.
    destruct (_rxBufferIndex s <? _rxBufferBytesRead s).
    + destruct (_rxBuffer s !! _) ; [|discriminate].
      inversion H; subst. exact Hwf.
    + inversion H; subst. exact Hwf.
  - intros address quantity sendStop w n s' w' Hq H.
    apply requestFrom_result in H as (_ & _ & _ & Hi & Hs); [|exact Hq].
    unfold tx_cursor_ok. lia.
Qed.

(** C5. After a request that buffered two bytes and one [read], a
    request that nobody answers resets the received count to 0 and
    leaves the read cursor at 1: the cursor exceeds the count, although
    it did not before the call. *)
Theorem rx_cursor_overtakes_count :
  read two_received = Done (60, set_rxBufferIndex 1 two_received) /\
  rx_cursor_ok (set_rxBufferIndex 1 two_received) /\
  exists n s' w',
    requestFrom (set_rxBufferIndex 1 two_received) 0x50 2 1 silent_bus
      = Done (n, s', w') /\
    _rxBufferIndex s' = 1 /\
    _rxBufferBytesRead s' = 0 /\
    ~ rx_cursor_ok s' /\
    available s' = -1.
Proof.
  split; [reflexivity|]. split; [unfold rx_cursor_ok; cbn; lia|].
  eexists _, _, _. split; [vm_compute; reflexivity|].
  unfold rx_cursor_ok, available. cbn. repeat split; lia.
Qed.

Lemma requestFrom_loop_in_bounds (n : nat) :
  forall i quantity s w,
    0 <= i -> i + Z.of_nat n <= 255 ->
    (Z.to_nat i + n <= length (_rxBuffer s))%nat ->
    requestFrom_loop n i quantity s w <> OutOfBounds.
Proof.
  induction n as [|n IH]; intros i quantity s w Hi Hmax Hlen;
    cbn [requestFrom_loop]; [discriminate|].
  destruct (decide _) as [Hin|Hout]; [|lia].
  destruct (llRead s _ w) as [[r data] w1].
  destruct (result_code r =? 0); [|discriminate].
  assert (Hu : u8 (i + 1) = i + 1) by (apply u8_small; lia).
  apply IH; rewrite ?Hu; cbn [_rxBuffer set_rxBuffer set_rxBufferBytesRead];
    rewrite ?length_insert; lia.
Qed.

Lemma requestFrom_loop_overrun (n : nat) :
  forall i quantity s w,
    quiet w -> 0 <= i -> i + Z.of_nat n <= 255 ->
    (Z.to_nat i <= length (_rxBuffer s))%nat ->
    (length (_rxBuffer s) < Z.to_nat i + n)%nat ->
    requestFrom_loop n i quantity s w = OutOfBounds.
Proof.
  induction n as [|n IH]; intros i quantity s w Hq Hi Hmax Hle Hlen;
    cbn [requestFrom_loop].
  - lia.
  - destruct (decide _) as [Hin|Hout]; [|reflexivity].
    destruct (llRead_quiet s (negb (i =? quantity - 1)) w Hq)
      as (data & w1 & -> & Hq1).
    cbn [result_code]. change (0 =? 0) with true. cbv iota.
    assert (Hu : u8 (i + 1) = i + 1) by (apply u8_small; lia).
    apply IH; rewrite ?Hu; cbn [_rxBuffer set_rxBuffer set_rxBufferBytesRead];
      rewrite ?length_insert; try done; lia.
Qed.

(** C10. [requestFrom] never compares [quantity] with the capacity of
    the receive buffer.  A quantity within the capacity keeps every
    buffer access of the loop in bounds; for every quantity beyond the
    capacity there is a bus, a slave that acknowledges its address and
    keeps supplying bytes, on which the loop indexes past the end of the
    buffer. *)
Theorem requestFrom_bounds (s : SoftWire) (address quantity sendStop : Z) :
  0 <= quantity <= 255 ->
  (quantity <= Z.of_nat (length (_rxBuffer s)) ->
   forall w, requestFrom s address quantity sendStop w <> OutOfBounds) /\
  (Z.of_nat (length (_rxBuffer s)) < quantity ->
   requestFrom s address quantity sendStop willing_slave = OutOfBounds).
Proof.
  intros Hq. split.
  - intros Hfit w. unfold requestFrom.
    destruct (start _ address readMode w) as [r w1].
    destruct (result_code r =? 0); [|discriminate].
    destruct (requestFrom_loop _ _ _ _ _) as [[s1 w2]|] eqn:E;
      [discriminate|].
    exfalso. revert E. apply requestFrom_loop_in_bounds; cbn; lia.
  - intros Hover. unfold requestFrom.
    destruct (start_quiet (set_rxBufferBytesRead 0 s) address readMode
                willing_slave) as (w1 & -> & Hq1 & _); [done|].
    cbn [hd willing_slave idle_bus sda_in result_code].
    change (0 =? 0) with true. cbv iota.
    rewrite requestFrom_loop_overrun;
      [reflexivity|done|lia|lia|cbn; lia|cbn; lia].
Qed.

Lemma requestFrom_bounds_witness :
  0 <= 3 <= 255 /\
  requestFrom (attached [0; 0] []) 0x50 3 1 willing_slave = OutOfBounds /\
  requestFrom (attached [0; 0; 0] []) 0x50 3 1 willing_slave <> OutOfBounds.
Proof.
  split; [lia|]. split.
  - apply (requestFrom_bounds (attached [0; 0] []) 0x50 3 1); [lia|cbn; lia].
  - apply (requestFrom_bounds (attached [0; 0; 0] []) 0x50 3 1);
      [lia|cbn; lia].
Defined.

(** * Further properties *)

(** ** CRC-8 as a check value *)

(** X1. A payload followed by its own CRC folds to 0, whatever the
    initial value: the receiver of a packet with a trailing check byte
    accepts it by comparing the fold of the whole packet with 0. *)
Theorem crc8_self_check (init : Z) (payload : list Z) :
  crc8 init (payload ++ [crc8 init payload]) = 0.
Proof.
  unfold crc8. rewrite foldl_app. cbn [foldl].
  unfold crc8_update at 1. rewrite Z.lxor_nilpotent. reflexivity.
Qed.

Lemma lxor_byte (a b : Z) : is_byte a -> is_byte b -> is_byte (Z.lxor a b).
Proof.
  intros Ha Hb.
  assert (Hall : forallb
    (fun x => forallb (fun y => (0 <=? Z.lxor x y) && (Z.lxor x y <? 256))
                (map Z.of_nat (seq 0 256)))
    (map Z.of_nat (seq 0 256)) = true) by (vm_compute; reflexivity).
  pose proof (forall_below _ 256 Hall a Ha) as H.
  cbv beta in H. rewrite forallb_forall in H.
  specialize (H b). unfold is_byte.
  assert (Hin : In b (map Z.of_nat (seq 0 256))).
  { apply in_map_iff. exists (Z.to_nat b). unfold is_byte in Hb.
    split; [lia|]. apply in_seq. lia. }
  apply H in Hin. apply andb_true_iff in Hin as [H1 H2]. lia.
Qed.

Lemma crc8_loop8_inj (a b : Z) :
  is_byte a -> is_byte b -> crc8_loop 8 a = crc8_loop 8 b -> a = b.
Proof.
  intros Ha Hb Heq.
  assert (Hall : forallb
    (fun x => forallb (fun y => implb (crc8_loop 8 x =? crc8_loop 8 y)
                                  (x =? y))
                (map Z.of_nat (seq 0 256)))
    (map Z.of_nat (seq 0 256)) = true) by (vm_compute; reflexivity).
  pose proof (forall_below _ 256 Hall a Ha) as H.
  cbv beta in H. rewrite forallb_forall in H.
  assert (Hin : In b (map Z.of_nat (seq 0 256))).
  { apply in_map_iff. exists (Z.to_nat b). unfold is_byte in Hb.
    split; [lia|]. apply in_seq. lia. }
  apply H in Hin. rewrite Heq, Z.eqb_refl in Hin. cbn in Hin.
  apply Z.eqb_eq, Hin.
Qed.

Lemma crc8_update_byte (crc data : Z) : is_byte (crc8_update crc data).
Proof. unfold crc8_update, is_byte. apply crc8_loop_spec, u8_range. Qed.

Lemma lxor_cancel_l (c a b : Z) : Z.lxor c a = Z.lxor c b -> a = b.
Proof.
  intros H.
  rewrite <- (Z.lxor_0_l a), <- (Z.lxor_0_l b), <- (Z.lxor_nilpotent c).
  rewrite !Z.lxor_assoc, H. reflexivity.
Qed.

Lemma crc8_update_inj_data (crc d1 d2 : Z) :
  is_byte crc -> is_byte d1 -> is_byte d2 ->
  crc8_update crc d1 = crc8_update crc d2 -> d1 = d2.
Proof.
  intros Hc H1 H2 Heq. unfold crc8_update in Heq.
  apply crc8_loop8_inj in Heq; try apply u8_range.
  rewrite !u8_small in Heq by (apply lxor_byte; assumption).
  eapply lxor_cancel_l, Heq.
Qed.

Lemma crc8_update_inj_crc (c1 c2 data : Z) :
  is_byte c1 -> is_byte c2 -> is_byte data ->
  crc8_update c1 data = crc8_update c2 data -> c1 = c2.
Proof.
  intros H1 H2 Hd Heq. unfold crc8_update in Heq.
  apply crc8_loop8_inj in Heq; try apply u8_range.
  rewrite !u8_small in Heq by (apply lxor_byte; assumption).
  rewrite (Z.lxor_comm c1), (Z.lxor_comm c2) in Heq.
  eapply lxor_cancel_l, Heq.
Qed.

Lemma crc8_inj_init (payload : list Z) :
  forall c1 c2,
    is_byte c1 -> is_byte c2 -> Forall is_byte payload ->
    crc8 c1 payload = crc8 c2 payload -> c1 = c2.
Proof.
  induction payload as [|d rest IH]; intros c1 c2 H1 H2 Hp Heq;
    [exact Heq|].
  apply Forall_cons in Hp as [Hd Hrest]. unfold crc8 in Heq. cbn in Heq.
  apply IH in Heq; try assumption; try apply crc8_update_byte.
  eapply crc8_update_inj_crc; eassumption.
Qed.

Lemma crc8_byte (payload : list Z) :
  forall init, is_byte init -> is_byte (crc8 init payload).
Proof.
  induction payload as [|d rest IH]; intros init Hi; [exact Hi|].
  unfold crc8. cbn. apply IH, crc8_update_byte.
Qed.

(** X2. Changing one byte of a payload changes its CRC: two payloads of
    bytes that differ in exactly one position never fold to the same
    value from the same initial byte. *)
Theorem crc8_detects_byte_change
        (init d1 d2 : Z) (before after : list Z) :
  is_byte init -> is_byte d1 -> is_byte d2 ->
  Forall is_byte before -> Forall is_byte after ->
  d1 <> d2 ->
  crc8 init (before ++ d1 :: after) <> crc8 init (before ++ d2 :: after).
Proof.
  intros Hi H1 H2 Hb Ha Hne Heq.
  unfold crc8 in Heq. rewrite !foldl_app in Heq. cbn [foldl] in Heq.
  fold (crc8 init before) in Heq.
  apply (crc8_inj_init after) in Heq;
    try assumption; try apply crc8_update_byte.
  apply crc8_update_inj_data in Heq;
    [exact (Hne Heq)|apply crc8_byte, Hi|assumption..].
Qed.

Lemma crc8_detects_byte_change_witness :
  crc8 0 ([0x12] ++ 0x34 :: [0x56]) <> crc8 0 ([0x12] ++ 0x35 :: [0x56]).
Proof.
  apply (crc8_detects_byte_change 0 0x34 0x35 [0x12] [0x56]);
    unfold is_byte; repeat constructor; try lia; try discriminate.
Defined.

(** ** Clock configuration, continued *)

Lemma clock_delay_eq (frequency : Z) (s : SoftWire) :
  _delay_us (setClock frequency s) = clamp (1000000 / frequency) 2 510 / 2.
Proof.
  unfold setClock, setDelay_us, set_delay_us, clamp. cbn [_delay_us].
  change (u32 1000000) with 1000000.
  generalize (1000000 / frequency). intros p.
  destruct (p <? 2) eqn:H2; [apply Z.ltb_lt in H2|apply Z.ltb_ge in H2].
  - replace (Z.max 2 (Z.min 510 p)) with 2 by lia. reflexivity.
  - destruct (2 * 255 <? p) eqn:H5;
      [apply Z.ltb_lt in H5|apply Z.ltb_ge in H5].
    + replace (Z.max 2 (Z.min 510 p)) with 510 by lia. reflexivity.
    + replace (Z.max 2 (Z.min 510 p)) with p by lia.
      assert (1 <= p / 2 <= 255) by (Z.div_mod_to_equations; lia).
      lia.
Qed.

(** X3. [setClock] always leaves a half-bit delay between 1 and 255
    microseconds, a faster clock never gets a longer delay than a slower
    one, and nothing but the delay is changed. *)
Theorem setClock_antitone (f1 f2 : Z) (s : SoftWire) :
  0 < f1 <= f2 ->
  1 <= _delay_us (setClock f2 s) <= _delay_us (setClock f1 s) /\
  _delay_us (setClock f1 s) <= 255 /\
  set_delay_us (_delay_us s) (setClock f1 s) = set_delay_us (_delay_us s) s.
Proof.
  intros Hf. rewrite !clock_delay_eq. unfold clamp.
  assert (Hp : 1000000 / f2 <= 1000000 / f1)
    by (apply Z.div_le_compat_l; lia).
  revert Hp. generalize (1000000 / f1) (1000000 / f2). intros p1 p2 Hp.
  split; [|split; [|reflexivity]].
  - split.
    + apply (Z.div_le_lower_bound _ 2 1); lia.
    + apply Z.div_le_mono; lia.
  - apply Z.div_le_upper_bound; lia.
Qed.

Lemma setClock_antitone_witness :
  0 < 100000 <= 400000 /\
  1 <= _delay_us (setClock 400000 (attached [] []))
    <= _delay_us (setClock 100000 (attached [] [])).
Proof.
  split; [lia|].
  apply (setClock_antitone 100000 400000 (attached [] [])). lia.
Defined.

(** ** Buffered reader, continued *)

(** X4. [read] keeps the read cursor within the received count and
    leaves buffer and count alone; handing out a byte lowers [available]
    by exactly one, and with nothing unread it returns -1 and changes
    nothing. *)
Theorem read_keeps_cursor_within_count (s s' : SoftWire) (b : Z) :
  rx_cursor_ok s ->
  0 <= _rxBufferIndex s -> _rxBufferBytesRead s <= 255 ->
  read s = Done (b, s') ->
  rx_cursor_ok s' /\
  _rxBuffer s' = _rxBuffer s /\
  _rxBufferBytesRead s' = _rxBufferBytesRead s /\
  (0 < available s -> available s' = available s - 1) /\
  (available s <= 0 -> b = -1 /\ s' = s).
Proof.
  unfold rx_cursor_ok, available, read. intros Hok Hlo Hhi.
  destruct (_rxBufferIndex s <? _rxBufferBytesRead s) eqn:E;
    [apply Z.ltb_lt in E|apply Z.ltb_ge in E].
  - rewrite u8_small by lia.
    destruct (_rxBuffer s !! _); [|discriminate].
    intros [= <- <-]. cbn. repeat split; lia.
  - intros [= <- <-]. repeat split; try done; lia.
Qed.

Lemma read_keeps_cursor_within_count_witness :
  rx_cursor_ok (set_rxBufferIndex 1 two_received) /\
  available (set_rxBufferIndex 1 two_received) = available two_received - 1.
Proof.
  destruct (read_keeps_cursor_within_count two_received
              (set_rxBufferIndex 1 two_received) 60)
    as (Hok & _ & _ & Hav & _).
  - unfold rx_cursor_ok. cbn. lia.
  - cbn. lia.
  - cbn. lia.
  - reflexivity.
  - split; [exact Hok|]. apply Hav. unfold available. cbn. lia.
Defined.

(** ** Queueing a transmission *)

Lemma write_loop_address (data : list Z) :
  forall r s n s',
    write_loop data r s = Done (n, s') ->
    _txAddress s' = _txAddress s /\ _delay_us s' = _delay_us s.
Proof.
  induction data as [|d rest IH]; intros r s n s' H; cbn [write_loop] in H.
  - inversion H; subst. done.
  - destruct (write d s) as [[k s1]|] eqn:E; [|discriminate].
    apply IH in H as [-> ->]. unfold write in E.
    destruct (_txBufferSize s <=? _txBufferIndex s).
    + inversion E; subst. done.
    + destruct (decide _); [|discriminate]. inversion E; subst. done.
Qed.

Lemma write_loop_no_error (data : list Z) :
  forall r s n s',
    tx_wf s ->
    Z.of_nat (length data) <= _txBufferSize s - _txBufferIndex s ->
    write_loop data r s = Done (n, s') ->
    write_error s' = write_error s.
Proof.
  induction data as [|d rest IH]; intros r s n s' Hwf Hfit H;
    cbn [write_loop] in H.
  - inversion H; subst. reflexivity.
  - pose proof Hwf as (Hlen & Hidx & Hsize). cbn [length] in Hfit.
    rewrite write_room in H by (try done; lia).
    apply IH in H.
    + rewrite H. reflexivity.
    + unfold tx_wf. cbn. rewrite length_insert. lia.
    + cbn. lia.
Qed.

Lemma queued_bytes (s : SoftWire) (address : Z) (data : list Z) :
  tx_wf s ->
  Z.of_nat (length data) <= _txBufferSize s ->
  exists s',
    write_bytes data (beginTransmission address s)
      = Done (Z.of_nat (length data), s') /\
    take (Z.to_nat (_txBufferIndex s')) (_txBuffer s') = data /\
    _txAddress s' = address /\
    write_error s' = write_error s /\
    tx_wf s'.
Proof.
  intros Hwf Hfit. pose proof Hwf as (Hlen & Hidx & Hsize).
  assert (Hwf0 : tx_wf (beginTransmission address s))
    by (unfold tx_wf; cbn; lia).
  destruct (write_loop_spec data 0 (beginTransmission address s) Hwf0)
    as (s' & Hrun & Hwf' & Hsz & Hix & _ & Hnew & _ & _).
  cbn [beginTransmission _txBufferIndex _txBufferSize set_txBufferIndex
       set_txAddress] in Hrun, Hix, Hnew.
  replace (Z.min (Z.of_nat (length data)) (_txBufferSize s - 0))
    with (Z.of_nat (length data)) in * by lia.
  exists s'. unfold write_bytes. rewrite Hrun.
  split; [reflexivity|]. split; [|split; [|split; [|exact Hwf']]].
  - rewrite Hix. apply list_eq. intros j.
    destruct (decide (j < length data)%nat) as [Hj|Hj].
    + rewrite lookup_take_lt by lia.
      specialize (Hnew j). cbn in Hnew. apply Hnew. lia.
    + rewrite lookup_take_ge by lia. symmetry.
      apply lookup_ge_None. lia.
  - apply write_loop_address in Hrun as [Ha _]. exact Ha.
  - apply write_loop_no_error in Hrun; [exact Hrun|exact Hwf0|cbn; lia].
Qed.

(** X5. Queueing after [beginTransmission]: a payload that fits the
    transmit buffer is accepted whole, the bytes up to the write cursor
    are then exactly that payload, whatever was queued before, the
    target address is the one given, and no write error is raised. *)
Theorem queue_round_trip (s : SoftWire) (address : Z) (data : list Z) :
  tx_wf s ->
  Z.of_nat (length data) <= _txBufferSize s ->
  exists s',
    write_bytes data (beginTransmission address s)
      = Done (Z.of_nat (length data), s') /\
    take (Z.to_nat (_txBufferIndex s')) (_txBuffer s') = data /\
    _txAddress s' = address /\
    write_error s' = write_error s /\
    tx_wf s'.
Proof. apply queued_bytes. Qed.

Lemma queue_round_trip_witness :
  tx_wf two_queued /\
  exists s',
    write_bytes [9] (beginTransmission 0x20 two_queued) = Done (1, s') /\
    take (Z.to_nat (_txBufferIndex s')) (_txBuffer s') = [9].
Proof.
  assert (Hwf : tx_wf two_queued) by (unfold tx_wf; cbn; lia).
  split; [exact Hwf|].
  destruct (queue_round_trip two_queued 0x20 [9] Hwf) as (s' & Hrun & Hq & _);
    [cbn; lia|].
  exists s'. split; [exact Hrun|exact Hq].
Defined.

(** ** Waveforms of the bit engine *)

Lemma emitted_nil (w : bus) : emitted w w [].
Proof. reflexivity. Qed.

Lemma emitted_app (w w1 w2 : bus) (a b : list event) :
  emitted w w1 a -> emitted w1 w2 b -> emitted w w2 (a ++ b).
Proof.
  unfold emitted. intros H1 H2.
  rewrite H2, H1, reverse_app, app_assoc. reflexivity.
Qed.

Lemma emitted_same (w w1 w2 : bus) (a : list event) :
  emitted w w1 a -> trace w2 = trace w1 -> emitted w w2 a.
Proof. unfold emitted. intros H1 H2. rewrite H2. exact H1. Qed.

Lemma readSda_spec (w : bus) :
  fst (readSda w) = hd true (sda_in w) /\
  sda_in (snd (readSda w)) = tail (sda_in w).
Proof. unfold readSda. destruct (sda_in w) eqn:E; cbn; rewrite ?E; done. Qed.

(** A successful clock release only releases SCL. *)
Lemma setSclHighAndStretch_ok (s : SoftWire) (w w' : bus) :
  setSclHighAndStretch s w = (true, w') ->
  trace w' = SclHigh :: trace w /\
  sda_in w' = sda_in w /\
  sda_released w' = sda_released w /\
  scl_released w' = true.
Proof.
  unfold setSclHighAndStretch. intros E.
  apply stretch_with_cases in E as (w2 & Ht & Hs & Hc & Hi & _ & ->).
  done.
Qed.

Lemma shifted_bits_of (data : Z) :
  is_byte data -> shifted_bits 8 data = bits_of data.
Proof.
  intros Hd.
  assert (Hall : forallb
    (fun z => bool_decide (shifted_bits 8 z = bits_of z))
    (map Z.of_nat (seq 0 256)) = true) by (vm_compute; reflexivity).
  pose proof (forall_below _ 256 Hall data Hd) as H. cbv beta in H.
  apply bool_decide_eq_true in H. exact H.
Qed.

Lemma shift_in_bits_of (b : Z) :
  is_byte b -> foldl shift_in 0 (bits_of b) = b.
Proof.
  intros Hb.
  assert (Hall : forallb
    (fun z => foldl shift_in 0 (bits_of z) =? z)
    (map Z.of_nat (seq 0 256)) = true) by (vm_compute; reflexivity).
  pose proof (forall_below _ 256 Hall b Hb) as H. cbv beta in H.
  apply Z.eqb_eq, H.
Qed.

Lemma llWrite_bits_ok (s : SoftWire) (i : nat) :
  forall data w w',
    llWrite_bits i s data w = (true, w') ->
    emitted w w'
      (concat (map (bit_out_wave (_delay_us s)) (shifted_bits i data))) /\
    sda_in w' = sda_in w.
Proof.
  induction i as [|i IH]; intros data w w' H; cbn [llWrite_bits] in H.
  - inversion H; subst. split; [apply emitted_nil|reflexivity].
  - set (w1 := delayMicroseconds _ _) in H.
    destruct (setSclHighAndStretch s w1) as [[] w2] eqn:E2;
      cbn [negb] in H; [|discriminate].
    apply setSclHighAndStretch_ok in E2 as (Ht2 & Hi2 & _ & _).
    destruct (isExpired _) as [[] w3] eqn:E3; [discriminate|].
    apply isExpired_frame in E3 as (Ht3 & Hi3 & _).
    apply IH in H as (Hw & Hi).
    cbn [shifted_bits map concat]. split.
    + eapply emitted_app; [|exact Hw].
      unfold emitted, bit_out_wave. rewrite Ht3. cbn [trace delayMicroseconds].
      rewrite Ht2. subst w1.
      destruct (Z.land data 128 =? 0); reflexivity.
    + rewrite Hi, Hi3. cbn [sda_in delayMicroseconds]. rewrite Hi2.
      subst w1. destruct (Z.land data 128 =? 0); reflexivity.
Qed.

(** A byte transfer that does not time out, in terms of the bits the
    loop tests. *)
Lemma llWrite_done (s : SoftWire) (data : Z) (w w' : bus) (r : result_t) :
  llWrite s data w = (r, w') ->
  r <> timedOut ->
  emitted w w'
    (concat (map (bit_out_wave (_delay_us s)) (shifted_bits 8 data))
     ++ [SclLow; SdaHigh; DelayUs (_delay_us s); SclHigh;
         DelayUs (_delay_us s); SclLow]) /\
  r = (if hd true (sda_in w) then nack else ack) /\
  sda_in w' = tail (sda_in w) /\
  sda_released w' = true /\
  scl_released w' = false.
Proof.
  intros H Hr. unfold llWrite in H.
  destruct (llWrite_bits 8 s data w) as [[] w1] eqn:E1; cbn [negb] in H;
    [|inversion H; subst; done].
  apply llWrite_bits_ok in E1 as (Hw1 & Hi1).
  set (w2 := delayMicroseconds _ _) in H.
  destruct (setSclHighAndStretch s w2) as [[] w3] eqn:E3; cbn [negb] in H;
    [|inversion H; subst; done].
  apply setSclHighAndStretch_ok in E3 as (Ht3 & Hi3 & Hs3 & _).
  pose proof (readSda_spec w3) as (Hl & Hi4).
  pose proof (readSda_frame w3) as Hf.
  destruct (readSda w3) as [level w4]. cbn [fst snd] in Hl, Hi4.
  destruct (Hf w4 level eq_refl) as (Ht4 & _ & _ & Hs4 & _).
  inversion H; subst r w'. clear H.
  subst w2. cbn [sda_in delayMicroseconds setSdaHigh setSclLow
                 sda_released scl_released trace] in *.
  rewrite Hi3, Hi1 in Hl, Hi4.
  repeat split.
  - eapply emitted_app; [exact Hw1|].
    unfold emitted. cbn [trace setSclLow delayMicroseconds].
    rewrite Ht4, Ht3. reflexivity.
  - rewrite Hl. reflexivity.
  - exact Hi4.
  - rewrite Hs4, Hs3. reflexivity.
Qed.

(** X6. Whenever [llWrite] does not time out, what it did to the lines
    is exactly the waveform of the byte, most significant bit first,
    followed by the acknowledge clock pulse; its result is acknowledged
    exactly when the one SDA sample it takes is LOW, and it returns with
    SDA released and SCL held low. *)
Theorem llWrite_wave (s : SoftWire) (data : Z) (w w' : bus) (r : result_t) :
  is_byte data ->
  llWrite s data w = (r, w') ->
  r <> timedOut ->
  emitted w w' (byte_out_wave (_delay_us s) data) /\
  r = (if hd true (sda_in w) then nack else ack) /\
  sda_in w' = tail (sda_in w) /\
  sda_released w' = true /\
  scl_released w' = false.
Proof.
  intros Hd H Hr. unfold byte_out_wave.
  rewrite <- shifted_bits_of by exact Hd.
  eapply llWrite_done; eassumption.
Qed.

Lemma llWrite_wave_witness :
  is_byte 0xA0 /\
  emitted willing_slave (snd (llWrite (attached [] []) 0xA0 willing_slave))
    (byte_out_wave 5 0xA0) /\
  fst (llWrite (attached [] []) 0xA0 willing_slave) = ack.
Proof.
  assert (Hb : is_byte 0xA0) by (unfold is_byte; lia).
  split; [exact Hb|].
  destruct (llWrite_wave (attached [] []) 0xA0 willing_slave
              (snd (llWrite (attached [] []) 0xA0 willing_slave)) ack Hb)
    as (Hw & _); [vm_compute; reflexivity|discriminate|].
  split; [exact Hw|vm_compute; reflexivity].
Defined.

Lemma llRead_bits_ok (s : SoftWire) (i : nat) :
  forall data w data' w',
    llRead_bits i s data w = (true, data', w') ->
    data' = foldl shift_in data (next_samples i (sda_in w)) /\
    sda_in w' = drop i (sda_in w) /\
    emitted w w' (concat (replicate i (bit_in_wave (_delay_us s)))).
Proof.
  induction i as [|i IH]; intros data w data' w' H; cbn [llRead_bits] in H.
  - inversion H; subst. split; [reflexivity|]. split; [reflexivity|].
    apply emitted_nil.
  - set (w1 := delayMicroseconds _ _) in H.
    destruct (setSclHighAndStretch s w1) as [[] w2] eqn:E2;
      cbn [negb] in H; [|discriminate].
    apply setSclHighAndStretch_ok in E2 as (Ht2 & Hi2 & _ & _).
    destruct (wait_scl_high _) as [[] w3] eqn:E3; cbn [negb] in H;
      [|discriminate].
    apply wait_scl_high_frame in E3 as (Ht3 & _ & _ & Hi3 & _).
    pose proof (readSda_spec w3) as (Hl & Hi4).
    pose proof (readSda_frame w3) as Hf.
    destruct (readSda w3) as [level w4]. cbn [fst snd] in Hl, Hi4.
    destruct (Hf w4 level eq_refl) as (Ht4 & _).
    apply IH in H as (Hd & Hi & Hw).
    cbn [sda_in delayMicroseconds] in Hi3. rewrite Hi2 in Hi3.
    subst w1. cbn [sda_in delayMicroseconds setSdaHigh setSclLow] in Hi3.
    rewrite Hi3 in Hl, Hi4.
    cbn [next_samples foldl replicate concat]. split; [|split].
    + rewrite Hd, Hi4, Hl. reflexivity.
    + rewrite Hi, Hi4. destruct (sda_in w); [destruct i|]; reflexivity.
    + eapply emitted_app; [|exact Hw].
      unfold emitted, bit_in_wave. rewrite Ht4, Ht3.
      cbn [trace delayMicroseconds]. rewrite Ht2. reflexivity.
Qed.

(** A byte read that does not time out, in terms of the samples taken. *)
Lemma llRead_done (s : SoftWire) (sendAck : bool) (w w' : bus)
      (r : result_t) (data : Z) :
  llRead s sendAck w = (r, data, w') ->
  r <> timedOut ->
  r = ack /\
  data = foldl shift_in 0 (next_samples 8 (sda_in w)) /\
  sda_in w' = drop 8 (sda_in w) /\
  emitted w w' (byte_in_wave (_delay_us s) sendAck) /\
  sda_released w' = negb sendAck /\
  scl_released w' = false.
Proof.
  intros H Hr. unfold llRead in H.
  destruct (llRead_bits 8 s 0 w) as [[[] d] w1] eqn:E1; cbn [negb] in H;
    [|inversion H; subst; done].
  apply llRead_bits_ok in E1 as (Hd & Hi1 & Hw1).
  set (w2 := delayMicroseconds _ _) in H.
  destruct (setSclHighAndStretch s w2) as [[] w3] eqn:E3; cbn [negb] in H;
    [|inversion H; subst; done].
  apply setSclHighAndStretch_ok in E3 as (Ht3 & Hi3 & Hs3 & _).
  destruct (wait_scl_high _) as [[] w4] eqn:E4; cbn [negb] in H;
    [|inversion H; subst; done].
  apply wait_scl_high_frame in E4 as (Ht4 & Hs4 & _ & Hi4 & _).
  inversion H; subst r data w'. clear H.
  cbn [sda_in delayMicroseconds setSclLow trace scl_released
       sda_released] in *.
  repeat split.
  - exact Hd.
  - rewrite Hi4, Hi3. subst w2. destruct sendAck; exact Hi1.
  - unfold byte_in_wave. eapply emitted_app; [exact Hw1|].
    unfold emitted. cbn [trace setSclLow delayMicroseconds].
    rewrite Ht4. cbn [trace setSclLow delayMicroseconds]. rewrite Ht3.
    subst w2. destruct sendAck; reflexivity.
  - rewrite Hs4, Hs3. subst w2. destruct sendAck; reflexivity.
Qed.

(** X7. Reading is the inverse of the bit order on the wire: when the
    next eight levels of SDA are the bits of a byte, most significant
    first, and [llRead] does not time out, it returns acknowledged with
    exactly that byte, has consumed exactly those eight samples, has
    driven the acknowledge bit it was asked for, and holds SCL low. *)
Theorem llRead_round_trip (s : SoftWire) (sendAck : bool) (w w' : bus)
        (r : result_t) (data b : Z) (rest : list bool) :
  is_byte b ->
  sda_in w = bits_of b ++ rest ->
  llRead s sendAck w = (r, data, w') ->
  r <> timedOut ->
  r = ack /\ data = b /\ sda_in w' = rest /\
  emitted w w' (byte_in_wave (_delay_us s) sendAck) /\
  scl_released w' = false.
Proof.
  intros Hb Hin H Hr.
  destruct (llRead_done s sendAck w w' r data H Hr)
    as (Hack & Hd & Hi & Hw & _ & Hc).
  rewrite Hin in Hd, Hi.
  change (next_samples 8 (bits_of b ++ rest)) with (bits_of b) in Hd.
  change (drop 8 (bits_of b ++ rest)) with rest in Hi.
  rewrite shift_in_bits_of in Hd by exact Hb.
  done.
Qed.

Lemma llRead_round_trip_witness :
  is_byte 0xA5 /\
  llRead (attached [] []) true (idle_bus (bits_of 0xA5 ++ [false]) [] [])
  = (ack, 0xA5,
     snd (llRead (attached [] []) true
            (idle_bus (bits_of 0xA5 ++ [false]) [] []))).
Proof.
  assert (Hb : is_byte 0xA5) by (unfold is_byte; lia).
  split; [exact Hb|].
  destruct (llRead (attached [] []) true
              (idle_bus (bits_of 0xA5 ++ [false]) [] []))
    as [[r data] w'] eqn:E.
  destruct (llRead_round_trip (attached [] []) true
              (idle_bus (bits_of 0xA5 ++ [false]) [] []) w' r data
              0xA5 [false] Hb eq_refl E)
    as (-> & -> & _).
  - vm_compute in E. inversion E. discriminate.
  - reflexivity.
Defined.

(** ** Stop and start conditions *)

Lemma stop_done (s : SoftWire) (w : bus) :
  fst (stop s w) = ack ->
  emitted w (snd (stop s w)) (stop_wave (_delay_us s)) /\
  sda_in (snd (stop s w)) = sda_in w /\
  bus_idle (snd (stop s w)).
Proof.
  rewrite stop_unfold. cbv zeta.
  destruct (setSclHighAndStretch s _) as [[] w1] eqn:E; cbn [negb fst snd];
    [|discriminate].
  apply setSclHighAndStretch_ok in E as (Ht & Hi & _ & Hc).
  intros _. split; [|split; [|split]].
  - unfold emitted. cbn [trace setSdaHigh delayMicroseconds]. rewrite Ht.
    reflexivity.
  - cbn [sda_in setSdaHigh delayMicroseconds]. rewrite Hi. reflexivity.
  - reflexivity.
  - cbn [scl_released setSdaHigh delayMicroseconds]. exact Hc.
Qed.

Lemma stop_quiet (s : SoftWire) (w : bus) :
  quiet w -> fst (stop s w) = ack /\ quiet (snd (stop s w)).
Proof.
  intros Hq. rewrite stop_unfold. cbv zeta.
  rewrite quiet_stretch by done. cbn [negb fst snd]. done.
Qed.

(** X8. On a bus whose clock is not stretched, [stop] succeeds and
    produces the stop condition, SDA released while SCL is released,
    leaving the driver off both lines; a second [stop] right after it
    succeeds as well. *)
Theorem stop_on_quiet_bus (s : SoftWire) (w : bus) :
  quiet w ->
  fst (stop s w) = ack /\
  emitted w (snd (stop s w)) (stop_wave (_delay_us s)) /\
  bus_idle (snd (stop s w)) /\
  fst (stop s (snd (stop s w))) = ack.
Proof.
  intros Hq. destruct (stop_quiet s w Hq) as (Hack & Hq').
  destruct (stop_done s w Hack) as (Hw & _ & Hidle).
  split; [exact Hack|]. split; [exact Hw|]. split; [exact Hidle|].
  apply stop_quiet, Hq'.
Qed.

Lemma stop_on_quiet_bus_witness :
  quiet silent_bus /\
  fst (stop (attached [] []) (snd (stop (attached [] []) silent_bus))) = ack.
Proof.
  assert (Hq : quiet silent_bus) by done.
  split; [exact Hq|].
  apply (stop_on_quiet_bus (attached [] []) silent_bus Hq).
Defined.

(** X9. Whenever [llStart] or [llRepeatedStart] does not time out, the
    lines have seen the start condition, SDA forced low before SCL, or
    the repeated start, SDA forced low after SCL was released, followed
    by the waveform of the address byte; the result is acknowledged
    exactly when the acknowledge sample is LOW, and SCL is held low. *)
Theorem start_waves (s : SoftWire) (rawAddr : Z) (w w' : bus) (r : result_t) :
  is_byte rawAddr ->
  r <> timedOut ->
  (llStart s rawAddr w = (r, w') ->
   emitted w w'
     (start_wave (_delay_us s) ++ byte_out_wave (_delay_us s) rawAddr) /\
   r = (if hd true (sda_in w) then nack else ack) /\
   scl_released w' = false) /\
  (llRepeatedStart s rawAddr w = (r, w') ->
   emitted w w'
     (repeated_start_wave (_delay_us s)
      ++ byte_out_wave (_delay_us s) rawAddr) /\
   r = (if hd true (sda_in w) then nack else ack) /\
   scl_released w' = false).
Proof.
  intros Hb Hr. split.
  - unfold llStart. intros H.
    apply llWrite_done in H as (Hw & Hres & _ & _ & Hc); [|exact Hr].
    rewrite shifted_bits_of in Hw by exact Hb.
    split; [|split; [exact Hres|exact Hc]].
    eapply emitted_app; [|exact Hw]. reflexivity.
  - unfold llRepeatedStart.
    destruct (setSclHighAndStretch s _) as [[] w1] eqn:E; cbn [negb];
      [|intros [= <- <-]; done].
    apply setSclHighAndStretch_ok in E as (Ht & Hi & _ & _).
    intros H.
    apply llWrite_done in H as (Hw & Hres & _ & _ & Hc); [|exact Hr].
    rewrite shifted_bits_of in Hw by exact Hb.
    cbn [sda_in setSdaLow delayMicroseconds] in Hres. rewrite Hi in Hres.
    split; [|split; [exact Hres|exact Hc]].
    eapply emitted_app; [|exact Hw].
    unfold emitted. cbn [trace setSdaLow delayMicroseconds]. rewrite Ht.
    reflexivity.
Qed.

Lemma start_waves_witness :
  is_byte 0xA0 /\
  emitted willing_slave (snd (llStart (attached [] []) 0xA0 willing_slave))
    (start_wave 5 ++ byte_out_wave 5 0xA0).
Proof.
  assert (Hb : is_byte 0xA0) by (unfold is_byte; lia).
  split; [exact Hb|].
  destruct (start_waves (attached [] []) 0xA0 willing_slave
              (snd (llStart (attached [] []) 0xA0 willing_slave)) ack Hb)
    as ((Hw & _) & _); [discriminate|vm_compute; reflexivity|].
  exact Hw.
Defined.

(** X10. A start that times out has reset the bus: when [llStart] or
    [llRepeatedStart] returns timed-out, a stop was the last thing done
    to the lines and the driver holds neither of them. *)
Theorem start_timeout_resets_bus (s : SoftWire) (rawAddr : Z) (w w' : bus) :
  llStart s rawAddr w = (timedOut, w') \/
  llRepeatedStart s rawAddr w = (timedOut, w') ->
  stopped_since s w w' /\ bus_idle w'.
Proof.
  intros H.
  assert (Hs : stopped_since s w w').
  { destruct H as [H|H].
    - unfold llStart in H. apply llWrite_cases in H.
      eapply stopped_since_from; [|exact H]. later_ops.
    - unfold llRepeatedStart in H.
      set (w1 := delayMicroseconds _ _) in H.
      assert (H1 : later w w1) by (subst w1; later_ops).
      destruct (setSclHighAndStretch s w1) as [ok w2] eqn:E.
      pose proof (setSclHighAndStretch_later _ _ _ _ E) as H2.
      apply setSclHighAndStretch_cases in E.
      destruct ok; cbn [negb] in H.
      + apply llWrite_cases in H.
        eapply stopped_since_from; [|exact H].
        etrans; [exact H1|]. etrans; [exact H2|]. later_ops.
      + inversion H; subst. eapply stopped_since_from; eassumption. }
  split; [exact Hs|eapply stopped_since_idle, Hs].
Qed.

Lemma start_timeout_resets_bus_witness :
  llStart (attached [] []) 0xA0 stretched_clock
    = (timedOut, snd (llStart (attached [] []) 0xA0 stretched_clock)) /\
  bus_idle (snd (llStart (attached [] []) 0xA0 stretched_clock)).
Proof.
  assert (H : llStart (attached [] []) 0xA0 stretched_clock
    = (timedOut, snd (llStart (attached [] []) 0xA0 stretched_clock)))
    by (vm_compute; reflexivity).
  split; [exact H|].
  apply (start_timeout_resets_bus (attached [] []) 0xA0 stretched_clock).
  left. exact H.
Defined.

(** ** The bus after a transmission *)

Lemma endTransmission_loop_pins (s : SoftWire) (n : nat) :
  forall i w res w',
    endTransmission_loop n i s w = Done (res, w') ->
    sda_released w = true -> scl_released w = false ->
    match res with
    | None => sda_released w' = true /\ scl_released w' = false
    | Some code =>
        (code = 3 /\ sda_released w' = true /\ scl_released w' = false) \/
        (code = 4 /\ stopped_since s w w')
    end.
Proof.
  induction n as [|n IH]; intros i w res w' H Hs Hc;
    cbn [endTransmission_loop] in H.
  - inversion H; subst. done.
  - destruct (_txBuffer s !! Z.to_nat i) as [b|]; [|discriminate].
    destruct (llWrite s b w) as [r w1] eqn:E.
    pose proof (llWrite_cases _ _ _ _ _ E) as Hl.
    destruct r.
    + apply llWrite_done in E as (_ & _ & _ & Hs1 & Hc1); [|discriminate].
      apply IH in H; [|assumption..].
      destruct res as [code|]; [|exact H].
      destruct H as [H|[H1 H2]]; [left; exact H|right].
      split; [exact H1|]. eapply stopped_since_from; eassumption.
    + apply llWrite_done in E as (_ & _ & _ & Hs1 & Hc1); [|discriminate].
      inversion H; subst. left. done.
    + inversion H; subst. right. done.
Qed.



(** X12. A transmission that times out, or that completes with a stop
    asked for, leaves the bus idle: when [endTransmission] returns 4, or
    returns 0 with [sendStop] set, the driver holds neither line. *)
Theorem endTransmission_releases_bus (s : SoftWire) (sendStop : Z)
        (w w' : bus) (code : Z) :
  endTransmission s sendStop w = Done (code, w') ->
  code = 4 \/ (code = 0 /\ sendStop <> 0) ->
  bus_idle w'.
Proof.
  unfold endTransmission, start, llStart.
  destruct (llWrite s _ _) as [r w1] eqn:E. destruct r.
  - apply llWrite_done in E as (_ & _ & _ & Hs1 & Hc1); [|discriminate].
    destruct (endTransmission_loop _ _ _ _) as [[res w2]|] eqn:EL;
      [|discriminate].
    apply endTransmission_loop_pins in EL; [|assumption..].
    destruct res as [c|].
    + intros [= <- <-] Hcode.
      destruct EL as [(-> & _)|(-> & H)]; [lia|].
      eapply stopped_since_idle, H.
    + intros [= <- <-] [?|[_ Hstop]]; [lia|].
      destruct (sendStop =? 0) eqn:E0; [apply Z.eqb_eq in E0; lia|].
      apply stop_idle.
  - intros [= <- <-] [?|[? _]]; lia.
  - apply llWrite_cases in E. intros [= <- <-] _.
    eapply stopped_since_idle, E.
Qed.

Lemma endTransmission_releases_bus_witness :
  exists w',
    endTransmission two_queued 1 (idle_bus [false; false; false] [] [])
      = Done (0, w') /\
    bus_idle w'.
Proof.
  destruct (endTransmission two_queued 1
              (idle_bus [false; false; false] [] []))
    as [[code w']|] eqn:E; [|vm_compute in E; discriminate].
  assert (Hc : code = 0) by (vm_compute in E; inversion E; reflexivity).
  subst code. exists w'. split; [reflexivity|].
  apply (endTransmission_releases_bus two_queued 1 _ w' 0 E).
  right. split; [reflexivity|discriminate].
Defined.

Lemma drop_S_tail {A : Type} (n : nat) (l : list A) :
  drop (S n) l = drop n (tail l).
Proof. destruct l; [destruct n|]; reflexivity. Qed.

Lemma endTransmission_loop_wave (s : SoftWire) (n : nat) :
  forall i w w',
    Forall is_byte (take n (drop (Z.to_nat i) (_txBuffer s))) ->
    endTransmission_loop n i s w = Done (None, w') ->
    0 <= i -> i + Z.of_nat n <= 255 ->
    emitted w w'
      (concat (map (byte_out_wave (_delay_us s))
                 (take n (drop (Z.to_nat i) (_txBuffer s))))) /\
    next_samples n (sda_in w) = replicate n false /\
    sda_in w' = drop n (sda_in w).
Proof.
  induction n as [|n IH]; intros i w w' Hbytes H Hi Hmax;
    cbn [endTransmission_loop] in H.
  - inversion H; subst. split; [apply emitted_nil|done].
  - destruct (_txBuffer s !! Z.to_nat i) as [b|] eqn:Hb; [|discriminate].
    rewrite (drop_S _ _ _ Hb) in Hbytes |- *.
    cbn [take map concat] in Hbytes |- *.
    apply Forall_cons in Hbytes as [Hbyte Hbytes].
    destruct (llWrite s b w) as [r w1] eqn:E.
    destruct r; [|discriminate..].
    apply llWrite_done in E as (Hw & Hres & Hin & _); [|done].
    rewrite shifted_bits_of in Hw by exact Hbyte.
    assert (Hu : u8 (i + 1) = i + 1) by (apply u8_small; lia).
    rewrite Hu in H.
    assert (Hn : Z.to_nat (i + 1) = S (Z.to_nat i)) by lia.
    apply IH in H as (Hw' & Hs' & Hin');
      [|rewrite Hn; exact Hbytes|lia..].
    + rewrite Hn in Hw'.
      split; [eapply emitted_app; eassumption|].
      rewrite Hin in Hs', Hin'. cbn [next_samples replicate].
      rewrite Hs', drop_S_tail. split; [|exact Hin'].
      f_equal. destruct (hd true (sda_in w)); [discriminate|reflexivity].
Qed.

Lemma endTransmission_done (s : SoftWire) (sendStop : Z) (w w' : bus) :
  0 <= _txBufferIndex s <= 255 ->
  Forall is_byte (take (Z.to_nat (_txBufferIndex s)) (_txBuffer s)) ->
  endTransmission s sendStop w = Done (0, w') ->
  exists w1,
    emitted w w1
      (start_wave (_delay_us s)
       ++ byte_out_wave (_delay_us s)
            (u8 (Z.shiftl (_txAddress s) 1 + writeMode))
       ++ concat (map (byte_out_wave (_delay_us s))
                    (take (Z.to_nat (_txBufferIndex s)) (_txBuffer s)))) /\
    next_samples (S (Z.to_nat (_txBufferIndex s))) (sda_in w)
      = replicate (S (Z.to_nat (_txBufferIndex s))) false /\
    w' = (if sendStop =? 0 then w1 else snd (stop s w1)).
Proof.
  intros Hidx Hbytes. unfold endTransmission, start, llStart.
  destruct (llWrite s _ _) as [r w1] eqn:E.
  destruct r; [|intros [=]..].
  apply llWrite_done in E as (Hw & Hres & Hin & Hs1 & Hc1); [|done].
  rewrite shifted_bits_of in Hw by apply u8_range.
  cbn [sda_in setSdaLow setSclLow delayMicroseconds] in Hres, Hin.
  destruct (endTransmission_loop _ _ _ _) as [[[c|] w2]|] eqn:EL;
    [| |discriminate].
  - intros [= -> <-].
    apply endTransmission_loop_pins in EL as [(? & _)|(? & _)];
      [lia|lia|assumption..].
  - intros [= <-].
    apply endTransmission_loop_wave in EL as (Hw2 & Hs2 & Hin2);
      [|change (Z.to_nat 0) with 0%nat; rewrite drop_0; exact Hbytes|lia..].
    change (Z.to_nat 0) with 0%nat in Hw2. rewrite drop_0 in Hw2.
    exists w2. split; [|split; [|reflexivity]].
    + eapply emitted_app; [|eapply emitted_app; [exact Hw|exact Hw2]].
      reflexivity.
    + cbn [next_samples replicate]. rewrite Hin in Hs2. rewrite Hs2.
      f_equal. destruct (hd true (sda_in w)); [discriminate|reflexivity].
Qed.

(** X13. What a successful transmission puts on the wire: when
    [endTransmission] returns 0, the lines have seen the start
    condition, the address byte with the write bit and then the queued
    bytes in queue order, every acknowledge sample was LOW, and a stop
    follows exactly when [sendStop] is set. *)
Theorem endTransmission_wave (s : SoftWire) (sendStop : Z) (w w' : bus) :
  0 <= _txBufferIndex s <= 255 ->
  Forall is_byte (take (Z.to_nat (_txBufferIndex s)) (_txBuffer s)) ->
  endTransmission s sendStop w = Done (0, w') ->
  exists w1,
    emitted w w1
      (start_wave (_delay_us s)
       ++ byte_out_wave (_delay_us s)
            (u8 (Z.shiftl (_txAddress s) 1 + writeMode))
       ++ concat (map (byte_out_wave (_delay_us s))
                    (take (Z.to_nat (_txBufferIndex s)) (_txBuffer s)))) /\
    next_samples (S (Z.to_nat (_txBufferIndex s))) (sda_in w)
      = replicate (S (Z.to_nat (_txBufferIndex s))) false /\
    w' = (if sendStop =? 0 then w1 else snd (stop s w1)).
Proof. apply endTransmission_done. Qed.

Lemma endTransmission_wave_witness :
  Forall is_byte (take (Z.to_nat (_txBufferIndex two_queued))
                    (_txBuffer two_queued)) /\
  exists w1,
    emitted (idle_bus [false; false; false] [] []) w1
      (start_wave 5 ++ byte_out_wave 5 0xA0
       ++ byte_out_wave 5 1 ++ byte_out_wave 5 2).
Proof.
  assert (Hb : Forall is_byte (take (Z.to_nat (_txBufferIndex two_queued))
                                 (_txBuffer two_queued)))
    by (repeat constructor; unfold is_byte; lia).
  split; [exact Hb|].
  destruct (endTransmission two_queued 0
              (idle_bus [false; false; false] [] []))
    as [[code w']|] eqn:E; [|vm_compute in E; discriminate].
  assert (Hc : code = 0) by (vm_compute in E; inversion E; reflexivity).
  subst code.
  destruct (endTransmission_wave two_queued 0 _ w' ltac:(cbn; lia) Hb E)
    as (w1 & Hw & _).
  exists w1. exact Hw.
Defined.

(** ** Requests, continued *)

Lemma bytes_of_samples_bits (bs : list Z) (rest : list bool) :
  Forall is_byte bs ->
  bytes_of_samples (length bs) (concat (map bits_of bs) ++ rest) = bs.
Proof.
  induction 1 as [|b bs Hb Hbs IH]; [reflexivity|].
  cbn [length map concat bytes_of_samples]. rewrite <- app_assoc.
  change (next_samples 8 (bits_of b ++ concat (map bits_of bs) ++ rest))
    with (bits_of b).
  change (drop 8 (bits_of b ++ concat (map bits_of bs) ++ rest))
    with (concat (map bits_of bs) ++ rest).
  rewrite shift_in_bits_of by exact Hb. rewrite IH. reflexivity.
Qed.

(** A receive loop in which every read succeeded. *)
Lemma requestFrom_loop_complete (n : nat) :
  forall i quantity s w s' w',
    requestFrom_loop n i quantity s w = Done (s', w') ->
    _rxBufferBytesRead s' = _rxBufferBytesRead s + Z.of_nat n ->
    0 <= i -> i + Z.of_nat n <= 255 ->
    0 <= _rxBufferBytesRead s ->
    _rxBufferBytesRead s + Z.of_nat n <= 255 ->
    _rxBuffer s' =
      take (Z.to_nat i) (_rxBuffer s)
      ++ bytes_of_samples n (sda_in w)
      ++ drop (Z.to_nat i + n) (_rxBuffer s) /\
    sda_in w' = drop (8 * n) (sda_in w) /\
    emitted w w'
      (concat (map (fun k => byte_in_wave (_delay_us s)
                               (negb (Z.of_nat k =? quantity - 1)))
                 (seq (Z.to_nat i) n))) /\
    _delay_us s' = _delay_us s.
Proof.
  induction n as [|n IH]; intros i quantity s w s' w' H Hcount Hi Hmax Hlo Hhi;
    cbn [requestFrom_loop] in H.
  - inversion H; subst. cbn [bytes_of_samples seq map concat].
    rewrite Nat.add_0_r, Nat.mul_0_r. cbn [app drop].
    rewrite take_drop. split; [reflexivity|]. split; [reflexivity|].
    split; [apply emitted_nil|reflexivity].
  - destruct (decide _) as [Hin|Hout]; [|discriminate].
    destruct (llRead s _ w) as [[r data] w1] eqn:E.
    destruct r; cbn [result_code] in H.
    + change (0 =? 0) with true in H. cbv iota in H.
      apply llRead_done in E as (_ & Hd & Hs1 & Hw1 & _); [|discriminate].
      assert (Hu : u8 (i + 1) = i + 1) by (apply u8_small; lia).
      rewrite Hu in H.
      apply IH in H as (Hbuf & Hs' & Hw' & Hdel);
        cbn [_rxBufferBytesRead _rxBuffer set_rxBuffer set_rxBufferBytesRead
             _delay_us] in *;
        rewrite ?u8_small by lia; try lia.
      replace (Z.to_nat (i + 1)) with (S (Z.to_nat i)) in * by lia.
      split; [|split; [|split; [|exact Hdel]]].
      * rewrite Hbuf. cbn [bytes_of_samples].
        rewrite (take_S_r _ _ data)
          by (apply list_lookup_insert_eq; exact Hin).
        rewrite take_insert_ge by lia.
        rewrite drop_insert_lt by lia.
        rewrite Hs1, <- Hd, <- app_assoc.
        replace (Z.to_nat i + S n)%nat with (S (Z.to_nat i) + n)%nat by lia.
        reflexivity.
      * rewrite Hs', Hs1, drop_drop. f_equal. lia.
      * cbn [seq map concat]. rewrite Z2Nat.id by lia.
        eapply emitted_app; eassumption.
    + inversion H; subst.
      cbn [_rxBufferBytesRead set_rxBuffer] in Hcount. lia.
    + inversion H; subst.
      cbn [_rxBufferBytesRead set_rxBuffer] in Hcount. lia.
Qed.

Lemma requestFrom_loop_quiet (n : nat) :
  forall i quantity s w,
    quiet w -> 0 <= i -> i + Z.of_nat n <= 255 ->
    (Z.to_nat i + n <= length (_rxBuffer s))%nat ->
    0 <= _rxBufferBytesRead s ->
    _rxBufferBytesRead s + Z.of_nat n <= 255 ->
    exists s' w',
      requestFrom_loop n i quantity s w = Done (s', w') /\
      _rxBufferBytesRead s' = _rxBufferBytesRead s + Z.of_nat n /\
      quiet w'.
Proof.
  induction n as [|n IH]; intros i quantity s w Hq Hi Hmax Hlen Hlo Hhi;
    cbn [requestFrom_loop].
  - exists s, w. split; [reflexivity|]. split; [lia|exact Hq].
  - destruct (decide _) as [Hin|Hout]; [|lia].
    destruct (llRead_quiet s (negb (i =? quantity - 1)) w Hq)
      as (data & w1 & -> & Hq1).
    cbn [result_code]. change (0 =? 0) with true. cbv iota.
    assert (Hu : u8 (i + 1) = i + 1) by (apply u8_small; lia).
    rewrite Hu.
    edestruct (IH (i + 1) quantity) as (s' & w' & Hrun & Hcount & Hq');
      [exact Hq1|lia|lia| | | |].
    4: { exists s', w'. split; [exact Hrun|]. split; [|exact Hq'].
         rewrite Hcount.
         cbn [_rxBufferBytesRead set_rxBufferBytesRead set_rxBuffer].
         rewrite u8_small by lia. lia. }
    + cbn [_rxBuffer set_rxBufferBytesRead set_rxBuffer].
      rewrite length_insert. lia.
    + cbn [_rxBufferBytesRead set_rxBufferBytesRead set_rxBuffer].
      rewrite u8_small by lia. lia.
    + cbn [_rxBufferBytesRead set_rxBufferBytesRead set_rxBuffer].
      rewrite u8_small by lia. lia.
Qed.

(** [stop] looks at nothing of the object but its half-bit delay. *)
Lemma stop_rec_delay (s1 s2 : SoftWire) (n : nat) :
  _delay_us s1 = _delay_us s2 ->
  forall w, stop_rec n s1 w = stop_rec n s2 w.
Proof.
  intros Hd. induction n as [|n IH]; intros w; cbn [stop_rec].
  - unfold stop_with. rewrite Hd. reflexivity.
  - transitivity (stop_with (fun w' => snd (stop_rec n s1 w')) s2 w).
    + unfold stop_with. rewrite Hd. reflexivity.
    + apply stop_with_ext. intros w2 _. rewrite IH. reflexivity.
Qed.

Lemma stop_delay (s1 s2 : SoftWire) (w : bus) :
  _delay_us s1 = _delay_us s2 -> stop s1 w = stop s2 w.
Proof. intros Hd. unfold stop. apply stop_rec_delay, Hd. Qed.

Lemma map_seq_const {A : Type} (f : nat -> A) (x : A) (n : nat) :
  forall start,
    (forall k, (start <= k < start + n)%nat -> f k = x) ->
    map f (seq start n) = replicate n x.
Proof.
  induction n as [|n IH]; intros start Hf; [reflexivity|].
  cbn [seq map replicate]. rewrite Hf by lia. f_equal.
  apply IH. intros k Hk. apply Hf. lia.
Qed.

(** X14. Receiving is faithful: on a bus whose clock is not stretched,
    when the slave acknowledges its address and then supplies a sequence
    of bytes that fits the receive buffer, [requestFrom] for that many
    bytes stores exactly that sequence at the start of the buffer, in
    order, counts every byte, and leaves the rest of the buffer alone. *)
Theorem requestFrom_round_trip (s : SoftWire) (address sendStop : Z)
        (w : bus) (bs : list Z) (rest : list bool) :
  quiet w ->
  sda_in w = false :: concat (map bits_of bs) ++ rest ->
  Forall is_byte bs ->
  (length bs <= length (_rxBuffer s))%nat ->
  (length bs <= 255)%nat ->
  exists n s' w',
    requestFrom s address (Z.of_nat (length bs)) sendStop w
      = Done (n, s', w') /\
    take (length bs) (_rxBuffer s') = bs /\
    drop (length bs) (_rxBuffer s') = drop (length bs) (_rxBuffer s) /\
    _rxBufferBytesRead s' = Z.of_nat (length bs).
Proof.
  intros Hq Hin Hbytes Hfit Hmax. unfold requestFrom.
  destruct (start_quiet (set_rxBufferBytesRead 0 s) address readMode w Hq)
    as (w1 & -> & Hq1 & Hin1).
  rewrite Hin in Hin1 |- *. cbn [hd tail result_code] in Hin1 |- *.
  change (0 =? 0) with true. cbv iota. rewrite Nat2Z.id.
  destruct (requestFrom_loop_quiet (length bs) 0 (Z.of_nat (length bs))
              (set_rxBufferBytesRead 0 s) w1)
    as (s' & w' & Hrun & Hcount & _);
    [exact Hq1|lia|lia|cbn; lia|cbn; lia|cbn; lia|].
  rewrite Hrun.
  apply requestFrom_loop_complete in Hrun as (Hbuf & _);
    [|exact Hcount|lia|lia|cbn; lia|cbn; lia].
  cbn [_rxBufferBytesRead _rxBuffer set_rxBufferBytesRead] in Hbuf, Hcount.
  change (Z.to_nat 0) with 0%nat in Hbuf.
  rewrite take_0 in Hbuf. cbn [app Nat.add] in Hbuf.
  rewrite Hin1, bytes_of_samples_bits in Hbuf by exact Hbytes.
  eexists _, s', _. split; [reflexivity|].
  rewrite Hbuf. split; [apply take_app_length|].
  split; [apply drop_app_length|lia].
Qed.

Lemma requestFrom_round_trip_witness :
  quiet two_byte_slave /\
  exists n s' w',
    requestFrom (attached [0; 0; 0] []) 0x50 2 1 two_byte_slave
      = Done (n, s', w') /\
    take 2 (_rxBuffer s') = [0xA5; 0x3C].
Proof.
  assert (Hq : quiet two_byte_slave) by done.
  split; [exact Hq|].
  destruct (requestFrom_round_trip (attached [0; 0; 0] []) 0x50 1
              two_byte_slave [0xA5; 0x3C] [] Hq)
    as (n & s' & w' & Hrun & Htake & _).
  - reflexivity.
  - repeat constructor; unfold is_byte; lia.
  - cbn. lia.
  - cbn. lia.
  - exists n, s', w'. split; [exact Hrun|exact Htake].
Defined.

(** X15. The master acknowledges every byte of a request but the last:
    when [requestFrom] of a nonzero quantity has counted every byte, the
    lines have seen the start condition, the address byte with the read
    bit, and then one byte read per requested byte, each with SDA driven
    low at the acknowledge bit except the last, where SDA is released; a
    stop follows exactly when [sendStop] is set. *)
Theorem requestFrom_acks_all_but_last (s : SoftWire)
        (address quantity sendStop : Z) (w : bus)
        (n : Z) (s' : SoftWire) (w' : bus) :
  0 < quantity <= 255 ->
  requestFrom s address quantity sendStop w = Done (n, s', w') ->
  _rxBufferBytesRead s' = quantity ->
  exists w1,
    emitted w w1
      (start_wave (_delay_us s)
       ++ byte_out_wave (_delay_us s) (u8 (Z.shiftl address 1 + readMode))
       ++ request_wave (_delay_us s) (Z.to_nat quantity)) /\
    w' = (if sendStop =? 0 then w1 else snd (stop s w1)).
Proof.
  intros Hq. unfold requestFrom, start, llStart.
  destruct (llWrite _ _ _) as [r w1] eqn:E.
  destruct r; cbn [result_code];
    [|intros [= <- <- <-]; cbn; lia..].
  change (0 =? 0) with true. cbv iota.
  apply llWrite_done in E as (Hw & _); [|done].
  rewrite shifted_bits_of in Hw by apply u8_range.
  destruct (requestFrom_loop _ _ _ _ _) as [[s1 w2]|] eqn:EL; [|discriminate].
  intros [= <- <- <-] Hcount.
  apply requestFrom_loop_complete in EL as (_ & _ & Hw2 & Hdel);
    cbn [_rxBufferBytesRead _delay_us set_rxBufferBytesRead] in *;
    [|lia..].
  exists w2. split.
  - eapply emitted_app; [|eapply emitted_app; [exact Hw|]]; [reflexivity|].
    unfold request_wave.
    replace (Z.to_nat quantity) with (Z.to_nat quantity - 1 + 1)%nat in Hw2
      by lia.
    rewrite seq_app, map_app, concat_app in Hw2.
    rewrite (map_seq_const _ (byte_in_wave (_delay_us s) true)) in Hw2.
    + cbn [seq map concat] in Hw2.
      change (Z.to_nat 0) with 0%nat in Hw2. cbn [Nat.add] in Hw2.
      replace (Z.of_nat (Z.to_nat quantity - 1) =? quantity - 1) with true
        in Hw2 by (symmetry; apply Z.eqb_eq; lia).
      rewrite app_nil_r in Hw2. exact Hw2.
    + intros k Hk.
      replace (Z.of_nat k =? quantity - 1) with false
        by (symmetry; apply Z.eqb_neq; lia).
      reflexivity.
  - destruct (sendStop =? 0); [reflexivity|].
    f_equal. apply stop_delay. exact Hdel.
Qed.

Lemma requestFrom_acks_all_but_last_witness :
  exists w1,
    emitted two_byte_slave w1
      (start_wave 5 ++ byte_out_wave 5 0xA1
       ++ byte_in_wave 5 true ++ byte_in_wave 5 false).
Proof.
  destruct (requestFrom (attached [0; 0; 0] []) 0x50 2 0 two_byte_slave)
    as [[[n s'] w']|] eqn:E; [|vm_compute in E; discriminate].
  destruct (requestFrom_acks_all_but_last (attached [0; 0; 0] []) 0x50 2 0
              two_byte_slave n s' w' ltac:(lia) E)
    as (w1 & Hw & _).
  - vm_compute in E. inversion E. reflexivity.
  - exists w1. exact Hw.
Defined.



(** ** Start with retry, continued *)

(** X17. [llStartWait] never answers not-acknowledged.  When it answers
    acknowledged, the deadline had not expired at entry and the lines
    have seen SDA forced low followed by the waveform of the address
    byte.  When it answers timed-out, either the deadline had expired at
    entry and the lines were not touched, or a stop was the last thing
    done to them and the driver holds neither line. *)
Theorem llStartWait_outcomes (s : SoftWire) (rawAddr : Z) (w w' : bus)
        (r : result_t) :
  is_byte rawAddr ->
  llStartWait s rawAddr w = (r, w') ->
  match r with
  | ack =>
      fst (isExpired w) = false /\
      emitted w w'
        ([SdaLow; DelayUs (_delay_us s)]
         ++ byte_out_wave (_delay_us s) rawAddr) /\
      scl_released w' = false
  | nack => False
  | timedOut =>
      (fst (isExpired w) = true /\ trace w' = trace w) \/
      (stopped_since s w w' /\ bus_idle w')
  end.
Proof.
  intros Hb. unfold llStartWait.
  destruct (isExpired w) as [expired w0] eqn:E0.
  apply isExpired_frame in E0 as (Ht0 & _).
  destruct expired.
  - intros [= <- <-]. left. done.
  - destruct (llWrite s rawAddr _) as [r1 w1] eqn:E1.
    pose proof (llWrite_cases _ _ _ _ _ E1) as Hl.
    destruct r1; intros [= <- <-].
    + apply llWrite_done in E1 as (Hw & _ & _ & _ & Hc); [|discriminate].
      rewrite shifted_bits_of in Hw by exact Hb.
      split; [reflexivity|]. split; [|exact Hc].
      eapply emitted_app; [|exact Hw].
      unfold emitted. cbn [trace setSdaLow delayMicroseconds].
      rewrite Ht0. reflexivity.
    + right.
      assert (Hs : stopped_since s w (snd (stop s (snd (stop s w1))))).
      { apply stop_stopped_since.
        assert (later w w1).
        { etrans; [|exact Hl]. unfold later.
          cbn [trace setSdaLow delayMicroseconds]. rewrite Ht0. later_ops. }
        etrans; [eassumption|apply stop_later]. }
      split; [exact Hs|apply stop_idle].
    + right.
      assert (Hs : stopped_since s w (snd (stop s w1))).
      { apply stop_stopped_since. apply stopped_since_later in Hl.
        etrans; [|exact Hl]. unfold later.
        cbn [trace setSdaLow delayMicroseconds]. rewrite Ht0. later_ops. }
      split; [exact Hs|apply stop_idle].
Qed.

Lemma llStartWait_outcomes_witness :
  is_byte 0xA0 /\
  bus_idle (snd (llStartWait (attached [] []) 0xA0 busy_then_ready)).
Proof.
  assert (Hb : is_byte 0xA0) by (unfold is_byte; lia).
  split; [exact Hb|].
  pose proof (llStartWait_outcomes (attached [] []) 0xA0 busy_then_ready
                (snd (llStartWait (attached [] []) 0xA0 busy_then_ready))
                timedOut Hb) as H.
  destruct H as [[H _]|[_ H]].
  - vm_compute. reflexivity.
  - vm_compute in H. discriminate.
  - exact H.
Defined.

(** ** From the queue to the wire *)

(** X18. Queued bytes go out as queued: after [beginTransmission] and a
    multi-byte write of a payload that fits, a transmission that returns
    0 has put on the lines the start condition, the address given to
    [beginTransmission] with the write bit, and then exactly the bytes
    of the payload in order, followed by a stop exactly when [sendStop]
    is set. *)
Theorem queued_bytes_go_out (s : SoftWire) (address sendStop : Z)
        (data : list Z) (n : Z) (s1 : SoftWire) (w w' : bus) :
  tx_wf s ->
  Z.of_nat (length data) <= _txBufferSize s ->
  Forall is_byte data ->
  write_bytes data (beginTransmission address s) = Done (n, s1) ->
  endTransmission s1 sendStop w = Done (0, w') ->
  exists w1,
    emitted w w1
      (start_wave (_delay_us s)
       ++ byte_out_wave (_delay_us s) (u8 (Z.shiftl address 1 + writeMode))
       ++ concat (map (byte_out_wave (_delay_us s)) data)) /\
    w' = (if sendStop =? 0 then w1 else snd (stop s w1)).
Proof.
  intros Hwf Hfit Hbytes Hq He.
  destruct (queued_bytes s address data Hwf Hfit)
    as (s2 & Hq2 & Htake & Haddr & _ & Hwf2).
  rewrite Hq in Hq2. inversion Hq2; subst n s2. clear Hq2.
  assert (Hd : _delay_us s1 = _delay_us s).
  { unfold write_bytes in Hq. apply write_loop_address in Hq as [_ ->].
    reflexivity. }
  destruct Hwf2 as (_ & Hidx & Hsize).
  destruct (endTransmission_done s1 sendStop w w') as (w1 & Hw & _ & Hw');
    [lia|rewrite Htake; exact Hbytes|exact He|].
  rewrite Htake, Haddr, Hd in Hw. exists w1. split; [exact Hw|].
  rewrite Hw'. destruct (sendStop =? 0); [reflexivity|].
  f_equal. apply stop_delay, Hd.
Qed.

Lemma queued_bytes_go_out_witness :
  exists w1,
    emitted (idle_bus [false; false; false] [] []) w1
      (start_wave 5 ++ byte_out_wave 5 0x40
       ++ byte_out_wave 5 7 ++ byte_out_wave 5 9).
Proof.
  assert (Hwf : tx_wf two_queued) by (unfold tx_wf; cbn; lia).
  destruct (write_bytes [7; 9] (beginTransmission 0x20 two_queued))
    as [[n s1]|] eqn:Eq; [|vm_compute in Eq; discriminate].
  destruct (endTransmission s1 0 (idle_bus [false; false; false] [] []))
    as [[code w']|] eqn:Ee;
    [|vm_compute in Eq; inversion Eq; subst; vm_compute in Ee; discriminate].
  assert (Hc : code = 0).
  { vm_compute in Eq. inversion Eq; subst. vm_compute in Ee.
    inversion Ee. reflexivity. }
  subst code.
  destruct (queued_bytes_go_out two_queued 0x20 0 [7; 9] n s1
              (idle_bus [false; false; false] [] []) w' Hwf)
    as (w1 & Hw & _).
  - cbn. lia.
  - repeat constructor; unfold is_byte; lia.
  - exact Eq.
  - exact Ee.
  - exists w1. exact Hw.
Defined.

(** ** The transmit side across sequences of calls *)

Lemma requestFrom_loop_tx (n : nat) :
  forall i quantity s w s' w',
    requestFrom_loop n i quantity s w = Done (s', w') ->
    _txBuffer s' = _txBuffer s /\
    _txBufferIndex s' = _txBufferIndex s /\
    _txBufferSize s' = _txBufferSize s.
Proof.
  induction n as [|n IH]; intros i quantity s w s' w' H;
    cbn [requestFrom_loop] in H.
  - inversion H; subst. done.
  - destruct (decide _); [|discriminate].
    destruct (llRead s _ w) as [[r data] w1].
    destruct (result_code r =? 0).
    + apply IH in H. exact H.
    + inversion H; subst. done.
Qed.

Lemma call_keeps_tx_wf (c : api_call) (s s' : SoftWire) (w w' : bus) :
  tx_wf s -> call c s w = Done (s', w') -> tx_wf s'.
Proof.
  intros Hwf. destruct (tx_cursor_preserved s Hwf) as (Hw & Hwb & Hb & Hr & _).
  destruct c; cbn [call].
  - destruct (write _ s) as [[k s1]|] eqn:E; [|discriminate].
    intros [= <- <-]. eapply Hw, E.
  - destruct (write_bytes _ s) as [[k s1]|] eqn:E; [|discriminate].
    intros [= <- <-]. eapply Hwb, E.
  - intros [= <- <-]. apply Hb.
  - destruct (endTransmission _ _ _) as [[k w1]|]; [|discriminate].
    intros [= <- <-]. exact Hwf.
  - unfold requestFrom.
    destruct (start _ _ _ _) as [r w1].
    destruct (result_code r =? 0).
    + destruct (requestFrom_loop _ _ _ _ _) as [[s1 w2]|] eqn:E;
        [|discriminate].
      apply requestFrom_loop_tx in E as (Hbuf & Hi & Hs).
      intros [= <- <-]. unfold tx_wf. rewrite Hbuf, Hi, Hs. exact Hwf.
    + intros [= <- <-]. exact Hwf.
  - destruct (read s) as [[k s1]|] eqn:E; [|discriminate].
    intros [= <- <-]. eapply Hr. reflexivity.
Qed.



Lemma call_transmit_in_bounds (c : api_call) (s : SoftWire) (w : bus) :
  tx_wf s -> transmit_call c = true -> call c s w <> OutOfBounds.
Proof.
  intros Hwf Hc. pose proof Hwf as (Hlen & Hidx & Hsize).
  destruct c; cbn [call]; try discriminate.
  - destruct (Z_lt_le_dec (_txBufferIndex s) (_txBufferSize s)).
    + rewrite write_room by done. discriminate.
    + rewrite write_full by done. discriminate.
  - unfold write_bytes.
    destruct (write_loop_spec (map u8 data) 0 s Hwf) as (s1 & -> & _).
    discriminate.
  - unfold endTransmission.
    destruct (start _ _ _ _) as [r w1]. destruct r; try discriminate.
    destruct (endTransmission_loop_spec s (Z.to_nat (_txBufferIndex s)) 0 w1)
      as (w2 & ->); [lia|lia|cbn; lia|].
    cbn zeta. repeat case_decide; discriminate.
Qed.

(** X20. The transmit path never indexes outside its buffer: started
    from a well-formed object, no sequence of writes,
    [beginTransmission] and [endTransmission] calls reaches an
    out-of-bounds access, whatever the bus does. *)
Theorem transmit_calls_in_bounds (cs : list api_call) :
  forall s w,
    tx_wf s -> forallb transmit_call cs = true ->
    calls cs s w <> OutOfBounds.
Proof.
  induction cs as [|c rest IH]; intros s w Hwf Hcs; cbn [calls];
    [discriminate|].
  cbn [forallb] in Hcs. apply andb_true_iff in Hcs as [Hc Hrest].
  destruct (call c s w) as [[s1 w1]|] eqn:E.
  - apply IH; [|exact Hrest]. eapply call_keeps_tx_wf; eassumption.
  - exfalso. revert E. apply call_transmit_in_bounds; assumption.
Qed.

Lemma transmit_calls_in_bounds_witness :
  tx_wf two_queued /\
  calls [CallWrite 5; CallWriteBytes [1; 2; 3]; CallEndTransmission 1]
    two_queued silent_bus <> OutOfBounds.
Proof.
  assert (Hwf : tx_wf two_queued) by (unfold tx_wf; cbn; lia).
  split; [exact Hwf|].
  apply (transmit_calls_in_bounds _ two_queued silent_bus Hwf).
  reflexivity.
Defined.
